(** * openclaw-governance: policy evaluation, risk scoring and the engine

    A shallow embedding of the evaluation pipeline of the governance
    plugin: the context and time condition evaluators, the policy
    evaluator ([src/policy-evaluator.ts]), the risk assessor and the
    engine orchestrator, followed by the properties proved about them.

    Conventions of the embedding.
    - A JavaScript [number] that enters arithmetic is an exact rational
      ([Q]); clock components, counters and priorities are integers
      ([Z]).  Infinities and rounding error are outside the model.  [NaN]
      is modelled where the code can produce it: the risk assessor
      computes with whatever its table lookup returns, see [MaybeNaN].
    - An optional field [f?: T] is an [option T]; [undefined] is [None].
    - A plain object used as a dictionary ([Record<string, T>]) is a
      [gmap string T].  Property access on such an object also sees the
      members inherited from [Object.prototype]; see [js_get] and [js_in].
    - A [RegExp] object is represented by its [test] method.
    - Code of the repository that the evaluation calls but whose source
      is not part of the development is either a parameter of the
      section that uses it or a definition marked "Modelled from the
      spec". *)

From Stdlib Require Import ZArith QArith Qround Qminmax List Ascii String Bool.
From Stdlib Require Import Lia Lqa.
From Stdlib Require Import Sorted Permutation.
From stdpp Require Import base gmap strings list.
Import ListNotations.

Local Open Scope Z_scope.

(** ** JavaScript values and helpers *)

(** The values a field of type [unknown] can hold, as far as the code
    inspects them ([typeof x === "string"], [x === true]). *)
Inductive JsValue :=
| JsString (s : string)
| JsBool (b : bool)
| JsNumber (n : Q)
| JsOther.

(** [string | string[]] and friends. *)
Inductive OneOrMany (A : Type) :=
| One (a : A)
| Many (l : list A).
Arguments One {A} a.
Arguments Many {A} l.

(** [Array.isArray(x) ? x : [x]] *)
Definition toArray {A} (x : OneOrMany A) : list A :=
  match x with
  | One a => [a]
  | Many l => l
  end.

(** Truthiness of a string: only the empty string is falsy. *)
Definition truthy (s : string) : bool := negb (String.eqb s "").

(** Truthiness of an optional string: [undefined] and [""] are falsy. *)
Definition truthy_opt (o : option string) : bool :=
  match o with
  | Some s => truthy s
  | None => false
  end.

(** [arr.includes(x)] on an array of strings. *)
Definition includes (l : list string) (x : string) : bool :=
  existsb (String.eqb x) l.

(** [arr.includes(n)] on an array of numbers. *)
Definition includesZ (l : list Z) (n : Z) : bool :=
  existsb (Z.eqb n) l.

(** [text.includes(pattern)]: [pattern] occurs in [text]. *)
Fixpoint str_includes (pattern text : string) : bool :=
  if String.prefix pattern text then true
  else match text with
       | EmptyString => false
       | String _ rest => str_includes pattern rest
       end.

(** The property names every plain object inherits from
    [Object.prototype]. *)
Definition Object_prototype_keys : list string :=
  [ "constructor"; "__defineGetter__"; "__defineSetter__"; "hasOwnProperty";
    "__lookupGetter__"; "__lookupSetter__"; "isPrototypeOf";
    "propertyIsEnumerable"; "toString"; "valueOf"; "__proto__";
    "toLocaleString" ]%string.

(** The outcome of [obj[key]] on a plain object. *)
Inductive JsLookup (A : Type) :=
| Own (a : A)
| Inherited
| Undefined.
Arguments Own {A} a.
Arguments Inherited {A}.
Arguments Undefined {A}.

Definition js_get {A} (obj : gmap string A) (key : string) : JsLookup A :=
  match obj !! key with
  | Some a => Own a
  | None => if includes Object_prototype_keys key then Inherited else Undefined
  end.

(** [key in obj] on a plain object. *)
Definition js_in {A} (key : string) (obj : gmap string A) : bool :=
  match js_get obj key with
  | Undefined => false
  | _ => true
  end.

(** A [number] that may be [NaN]. *)
Inductive MaybeNaN (A : Type) :=
| Num (a : A)
| NaN.
Arguments Num {A} a.
Arguments NaN {A}.

(** A numeric operation of one argument: [NaN] in, [NaN] out. *)
Definition nan_map {A B} (f : A -> B) (x : MaybeNaN A) : MaybeNaN B :=
  match x with
  | Num a => Num (f a)
  | NaN => NaN
  end.

(** [x + y] *)
Definition js_add (x y : MaybeNaN Q) : MaybeNaN Q :=
  match x, y with
  | Num a, Num b => Num (a + b)%Q
  | _, _ => NaN
  end.

(** [x <= y], which is false when [x] is [NaN]. *)
Definition js_le (x : MaybeNaN Q) (y : Q) : bool :=
  match x with
  | Num a => Qle_bool a y
  | NaN => false
  end.

(** A compiled regular expression, given by its [test] method. *)
Record RegExp := { test : string -> bool }.

(** ** Domain types ([src/types.ts], as listed in ARCHITECTURE.md) *)

Inductive TrustTier := untrusted | restricted | standard | trusted | privileged.

Inductive PolicyHookName :=
  before_tool_call | message_sending | before_agent_start | session_start.

Inductive RiskLevel := low | medium | high | critical.

Inductive AuditLevel := audit_minimal | audit_standard | audit_verbose.

Inductive EscalationTarget := human.

Inductive Fallback := fallback_allow | fallback_deny.

Inductive FrequencyScope := scope_agent | scope_session | scope_global.

Record PolicyScope := {
  agents : option (list string);
  excludeAgents : option (list string);
  channels : option (list string);
  hooks : option (list PolicyHookName)
}.

Inductive RuleEffect :=
| EffAllow
| EffDeny (reason : option string)
| EffEscalate (to : EscalationTarget) (timeout : option Z)
              (fallback : option Fallback)
| EffAudit (level : option AuditLevel).

Inductive ParamMatcher :=
| PmEquals (v : JsValue)
| PmContains (s : string)
| PmMatches (s : string)
| PmStartsWith (s : string)
| PmIn (l : list JsValue).

Record ToolCondition := {
  tc_name : option (OneOrMany string);
  tc_params : option (gmap string ParamMatcher)
}.

Record TimeCondition := {
  tm_window : option string;
  tm_after : option string;
  tm_before : option string;
  tm_days : option (list Z)
}.

Record AgentCondition := {
  ac_id : option (OneOrMany string);
  ac_trustTier : option (OneOrMany TrustTier);
  ac_minScore : option Q;
  ac_maxScore : option Q
}.

Record ContextCondition := {
  conversationContains : option (OneOrMany string);
  messageContains : option (OneOrMany string);
  hasMetadata : option (OneOrMany string);
  cc_channel : option (OneOrMany string);
  cc_sessionKey : option string
}.

Record RiskCondition := {
  minRisk : option RiskLevel;
  maxRisk : option RiskLevel
}.

Record FrequencyCondition := {
  maxCount : Z;
  windowSeconds : Z;
  fc_scope : option FrequencyScope
}.

#[warnings="-register-all"]
Inductive Condition :=
| CTool (c : ToolCondition)
| CTime (c : TimeCondition)
| CAgent (c : AgentCondition)
| CContext (c : ContextCondition)
| CRisk (c : RiskCondition)
| CFrequency (c : FrequencyCondition)
| CAny (conditions : list Condition)
| CNot (condition : Condition).

(** The discriminant [condition.type]. *)
Inductive ConditionType :=
  ty_tool | ty_time | ty_agent | ty_context | ty_risk | ty_frequency
| ty_any | ty_not.

Definition condition_type (c : Condition) : ConditionType :=
  match c with
  | CTool _ => ty_tool
  | CTime _ => ty_time
  | CAgent _ => ty_agent
  | CContext _ => ty_context
  | CRisk _ => ty_risk
  | CFrequency _ => ty_frequency
  | CAny _ => ty_any
  | CNot _ => ty_not
  end.

Record Rule := {
  rule_id : string;
  rule_conditions : list Condition;
  rule_effect : RuleEffect;
  minTrust : option TrustTier;
  maxTrust : option TrustTier
}.

Record Policy := {
  policy_id : string;
  policy_name : string;
  policy_version : string;
  scope : PolicyScope;
  rules : list Rule;
  enabled : option bool;
  priority : option Z
}.

Record TimeContext := {
  hour : Z;
  minute : Z;
  dayOfWeek : Z;
  date : string;
  timezone : string
}.

Record TrustSnapshot := {
  score : Q;
  tier : TrustTier
}.

Record EvaluationContext := {
  hook : PolicyHookName;
  agentId : string;
  sessionKey : string;
  channel : option string;
  toolName : option string;
  toolParams : option (gmap string JsValue);
  messageContent : option string;
  messageTo : option string;
  timestamp : Z;
  time : TimeContext;
  trust : TrustSnapshot;
  conversationContext : option (list string);
  metadata : option (gmap string JsValue);
  crossAgent : option JsValue
}.

Record RiskFactor := {
  rf_name : string;
  rf_weight : Q;
  rf_value : MaybeNaN Q;
  rf_description : string
}.

Record RiskAssessment := {
  risk_level : RiskLevel;
  risk_score : MaybeNaN Z;
  factors : list RiskFactor
}.

Record MatchedPolicy := {
  policyId : string;
  ruleId : string;
  effect : RuleEffect
}.

Record TimeWindow := {
  tw_name : string;
  tw_start : string;
  tw_end : string;
  tw_days : option (list Z);
  tw_timezone : option string
}.

(** The [FrequencyTracker] interface as its callers see it: the pipeline
    only reads it through [count(windowSeconds, scope, agentId,
    sessionKey)]. *)
Record FrequencyTracker := {
  count : Z -> FrequencyScope -> string -> string -> Z
}.

Record ConditionDeps := {
  regexCache : gmap string RegExp;
  timeWindows : gmap string TimeWindow;
  risk : RiskAssessment;
  frequencyTracker : FrequencyTracker
}.

(** [ConditionEvaluatorMap]: one evaluator per condition type. *)
Definition ConditionEvaluatorFn : Type :=
  Condition -> EvaluationContext -> ConditionDeps -> bool.

Definition ConditionEvaluatorMap : Type :=
  ConditionType -> ConditionEvaluatorFn.

(** ** Utilities ([src/util.ts]) *)

(** Value of a decimal digit, if the character is one. *)
Definition digit_of (a : ascii) : option Z :=
  let n := Z.of_nat (nat_of_ascii a) in
  if (48 <=? n) && (n <=? 57) then Some (n - 48) else None.

(** Modelled from the spec: [parseTimeToMinutes] of [src/util.ts] is not
    part of the development.  It "accepts "HH:MM" with 00<=HH<=23,
    00<=MM<=59; returns minutes since local midnight or a sentinel
    negative on parse failure".  The argument is optional because
    [evaluateTimeCondition] can pass it a missing property; anything that
    is not a well-formed time is a parse failure. *)
Definition parseTimeToMinutes (time : option string) : Z :=
  match time with
  | Some (String h1 (String h2 (String ":" (String m1 (String m2 EmptyString))))) =>
      match digit_of h1, digit_of h2, digit_of m1, digit_of m2 with
      | Some a, Some b, Some c, Some d =>
          let hh := 10 * a + b in
          let mm := 10 * c + d in
          if (hh <=? 23) && (mm <=? 59) then hh * 60 + mm else -1
      | _, _, _, _ => -1
      end
  | _ => -1
  end.

(** Modelled from the spec: [isInTimeRange] of [src/util.ts] is not part
    of the development.  It "returns true for after<=now<before when
    after<before, or now>=after OR now<before when after>before (midnight
    wrap), or equality when after==before". *)
Definition isInTimeRange (currentMinutes afterMinutes beforeMinutes : Z) : bool :=
  if afterMinutes <? beforeMinutes then
    (afterMinutes <=? currentMinutes) && (currentMinutes <? beforeMinutes)
  else if beforeMinutes <? afterMinutes then
    (afterMinutes <=? currentMinutes) || (currentMinutes <? beforeMinutes)
  else currentMinutes =? afterMinutes.

(** Modelled from the spec: [clamp] of [src/util.ts] is not part of the
    development; it "clamps a number to [min, max]".  Of a value that is
    not a number it is taken to return [NaN], as
    [Math.min(Math.max(value, min), max)] does; the caller lifts it with
    [nan_map]. *)
Definition clamp (value min max : Q) : Q := Qmin max (Qmax min value).

(** ** Tier comparison ([src/conditions/simple.ts]) *)

(** Modelled from the spec: [isTierAtLeast] and [isTierAtMost] of
    [src/conditions/simple.ts] are not part of the development.  The spec
    fixes "the five-band natural order" untrusted < restricted < standard
    < trusted < privileged for the gate semantics. *)
Definition tier_rank (t : TrustTier) : Z :=
  match t with
  | untrusted => 0
  | restricted => 1
  | standard => 2
  | trusted => 3
  | privileged => 4
  end.

Definition isTierAtLeast (tier min : TrustTier) : bool :=
  tier_rank min <=? tier_rank tier.

Definition isTierAtMost (tier max : TrustTier) : bool :=
  tier_rank tier <=? tier_rank max.

(** ** Condition kernel *)

(** Modelled from the spec: [evaluateConditions] of
    [src/conditions/index.ts] is not part of the development.  A rule's
    conditions are combined under AND, short-circuiting on the first
    false; each condition is handed to the evaluator registered for its
    type. *)
Definition evaluateConditions (conditions : list Condition)
    (ctx : EvaluationContext) (deps : ConditionDeps)
    (evaluators : ConditionEvaluatorMap) : bool :=
  forallb (fun c => evaluators (condition_type c) c ctx deps) conditions.

(** [condition as ContextCondition]: the fields the evaluator reads.  A
    condition of another type has none of them. *)
Definition as_ContextCondition (condition : Condition) : ContextCondition :=
  match condition with
  | CContext c => c
  | _ => {| conversationContains := None; messageContains := None;
            hasMetadata := None; cc_channel := None; cc_sessionKey := None |}
  end.

(** [condition as TimeCondition]. *)
Definition as_TimeCondition (condition : Condition) : TimeCondition :=
  match condition with
  | CTime c => c
  | _ => {| tm_window := None; tm_after := None; tm_before := None;
            tm_days := None |}
  end.

Section Kernel.

(** [new RegExp(pattern)]: the compiled expression, or [None] when the
    constructor throws a [SyntaxError]. *)
Variable new_RegExp : string -> option RegExp.

(** [globToRegex] of [src/util.ts]. *)
Variable globToRegex : string -> RegExp.

(** The evaluators of the other condition types
    ([src/conditions/*.ts]). *)
Variable evaluateToolCondition : ConditionEvaluatorFn.
Variable evaluateAgentCondition : ConditionEvaluatorFn.
Variable evaluateRiskCondition : ConditionEvaluatorFn.
Variable evaluateFrequencyCondition : ConditionEvaluatorFn.
Variable evaluateCompositeCondition : ConditionEvaluatorFn.
Variable evaluateNegationCondition : ConditionEvaluatorFn.

(** [src/conditions/context.ts] *)
Definition matchesAny (patterns : OneOrMany string) (texts : list string)
    (regexCache : gmap string RegExp) : bool :=
  let list := toArray patterns in
  existsb (fun pattern =>
    match regexCache !! pattern with
    | Some re => existsb (test re) texts
    | None =>
        (* try as a regex, fall back to substring search *)
        match new_RegExp pattern with
        | Some compiled => existsb (test compiled) texts
        | None => existsb (str_includes pattern) texts
        end
    end) list.

(** Each [if (c.field !== undefined) { ... return false ... }] block is
    one conjunct: the block is passed when it does not return false. *)
Definition evaluateContextCondition (condition : Condition)
    (ctx : EvaluationContext) (_deps : ConditionDeps) : bool :=
  let c := as_ContextCondition condition in
  (match conversationContains c with
   | Some patterns =>
       let convo := default [] (conversationContext ctx) in
       if (length convo =? 0)%nat then false
       else matchesAny patterns convo (regexCache _deps)
   | None => true
   end)
  &&
  (match messageContains c with
   | Some patterns =>
       let content := default ""%string (messageContent ctx) in
       if negb (truthy content) then false
       else matchesAny patterns [content] (regexCache _deps)
   | None => true
   end)
  &&
  (match hasMetadata c with
   | Some hm =>
       let meta := default ∅ (metadata ctx) in
       let keys := toArray hm in
       forallb (fun k => js_in k meta) keys
   | None => true
   end)
  &&
  (match cc_channel c with
   | Some ch =>
       let channels := toArray ch in
       match channel ctx with
       | Some ctx_channel =>
           if negb (truthy ctx_channel) then false
           else includes channels ctx_channel
       | None => false
       end
   | None => true
   end)
  &&
  (match cc_sessionKey c with
   | Some pattern =>
       if negb (truthy (sessionKey ctx)) then false
       else
         let re := globToRegex pattern in
         test re (sessionKey ctx)
   | None => true
   end).

(** [src/conditions/time.ts] *)

(** [c.days && c.days.length > 0 && !c.days.includes(dayOfWeek)] *)
Definition day_excluded (days : option (list Z)) (ctx : EvaluationContext) : bool :=
  match days with
  | Some (d :: ds) => negb (includesZ (d :: ds) (dayOfWeek (time ctx)))
  | _ => false
  end.

Definition evaluateTimeCondition (condition : Condition)
    (ctx : EvaluationContext) (deps : ConditionDeps) : bool :=
  let c := as_TimeCondition condition in
  if truthy_opt (tm_window c) then
    (* named window resolution *)
    let name := default ""%string (tm_window c) in
    match js_get (timeWindows deps) name with
    | Undefined => false
    | found =>
        (* [win.start], [win.end], [win.days]; an inherited member is
           not a window and has none of them *)
        let win_start := match found with Own w => Some (tw_start w) | _ => None end in
        let win_end := match found with Own w => Some (tw_end w) | _ => None end in
        let win_days := match found with Own w => tw_days w | _ => None end in
        let currentMinutes := hour (time ctx) * 60 + minute (time ctx) in
        let start := parseTimeToMinutes win_start in
        let end_ := parseTimeToMinutes win_end in
        if (start <? 0) || (end_ <? 0) then false
        else if negb (isInTimeRange currentMinutes start end_) then false
        else if day_excluded win_days ctx then false
        else true
    end
  else
    let currentMinutes := hour (time ctx) * 60 + minute (time ctx) in
    (* inline time range *)
    (match tm_after c, tm_before c with
     | Some a, Some b =>
         let afterMin := parseTimeToMinutes (Some a) in
         let beforeMin := parseTimeToMinutes (Some b) in
         if (afterMin <? 0) || (beforeMin <? 0) then false
         else isInTimeRange currentMinutes afterMin beforeMin
     | Some a, None =>
         let afterMin := parseTimeToMinutes (Some a) in
         if afterMin <? 0 then false
         else negb (currentMinutes <? afterMin)
     | None, Some b =>
         let beforeMin := parseTimeToMinutes (Some b) in
         if beforeMin <? 0 then false
         else negb (beforeMin <=? currentMinutes)
     | None, None => true
     end)
    &&
    (* day-of-week filter *)
    negb (day_excluded (tm_days c) ctx).

(** Modelled from the spec: [createConditionEvaluators] of
    [src/conditions/index.ts] is not part of the development.  The
    registry is the one listed in ARCHITECTURE.md section 3.6.1, over the
    closed set of condition kinds of the spec. *)
Definition createConditionEvaluators : ConditionEvaluatorMap :=
  fun ty =>
    match ty with
    | ty_tool => evaluateToolCondition
    | ty_time => evaluateTimeCondition
    | ty_agent => evaluateAgentCondition
    | ty_context => evaluateContextCondition
    | ty_risk => evaluateRiskCondition
    | ty_frequency => evaluateFrequencyCondition
    | ty_any => evaluateCompositeCondition
    | ty_not => evaluateNegationCondition
    end.

End Kernel.

(** ** Policy evaluator ([src/policy-evaluator.ts]) *)

(** [EvalResult.action] is declared as ["allow" | "deny"]. *)
Inductive EvalAction := eval_allow | eval_deny.

Record EvalResult := {
  action : EvalAction;
  reason : string;
  matches : list MatchedPolicy
}.

Definition matchesScope (policy : Policy) (ctx : EvaluationContext) : bool :=
  (* check excludeAgents *)
  if match excludeAgents (scope policy) with
     | Some excluded => includes excluded (agentId ctx)
     | None => false
     end
  then false
  (* check channels *)
  else if match channels (scope policy) with
          | Some (c :: cs) =>
              match channel ctx with
              | Some ctx_channel =>
                  negb (truthy ctx_channel) || negb (includes (c :: cs) ctx_channel)
              | None => true
              end
          | _ => false
          end
  then false
  else true.

(** [list && list.length > 0] *)
Definition nonempty {A} (o : option (list A)) : bool :=
  match o with
  | Some (_ :: _) => true
  | _ => false
  end.

Definition policySpecificity (policy : Policy) : Z :=
  let score := 0 in
  let score := if nonempty (agents (scope policy)) then score + 10 else score in
  let score := if nonempty (channels (scope policy)) then score + 5 else score in
  let score := if nonempty (hooks (scope policy)) then score + 3 else score in
  score.

(** The comparator handed to [applicable.sort]: a negative result places
    [a] before [b]. *)
Definition comparePolicies (a b : Policy) : Z :=
  let priDiff := default 0 (priority b) - default 0 (priority a) in
  if negb (priDiff =? 0) then priDiff
  else policySpecificity b - policySpecificity a.

(** [Array.prototype.sort(compare)].  The sort is stable, so for a
    comparator that is a consistent ordering its result is the one of
    stable insertion: taking the elements from the last to the first,
    each is inserted before the first element that it need not follow. *)
Section ArraySort.
Context {A : Type}.
Variable compare : A -> A -> Z.

Fixpoint sort_insert (a : A) (sorted : list A) : list A :=
  match sorted with
  | [] => [a]
  | x :: rest =>
      if compare a x <=? 0 then a :: x :: rest
      else x :: sort_insert a rest
  end.

Definition Array_sort (l : list A) : list A :=
  foldr sort_insert [] l.

(** The comparator does not place [b] strictly before [a]. *)
Definition before (a b : A) : Prop := compare a b <= 0.
End ArraySort.

(** The mutable locals of the aggregation loop. *)
Record LoopState := {
  ls_matches : list MatchedPolicy;
  hasDeny : bool;
  denyReason : string;
  hasAudit : bool
}.

Definition deps_with_risk (deps : ConditionDeps) (r : RiskAssessment) : ConditionDeps :=
  {| regexCache := regexCache deps;
     timeWindows := timeWindows deps;
     risk := r;
     frequencyTracker := frequencyTracker deps |}.

Section PolicyEvaluator.

(** [this.evaluators], set by the constructor. *)
Variable evaluators : ConditionEvaluatorMap.

(** The [for (const rule of policy.rules)] loop; [continue] is the
    recursive call on the remaining rules. *)
Fixpoint rules_loop (policy : Policy) (remaining : list Rule)
    (ctx : EvaluationContext) (policyDeps : ConditionDeps)
    : option MatchedPolicy :=
  match remaining with
  | [] => None
  | rule :: rest =>
      if match minTrust rule with
         | Some min => negb (isTierAtLeast (tier (trust ctx)) min)
         | None => false
         end
      then rules_loop policy rest ctx policyDeps
      else if match maxTrust rule with
              | Some max => negb (isTierAtMost (tier (trust ctx)) max)
              | None => false
              end
      then rules_loop policy rest ctx policyDeps
      else if evaluateConditions (rule_conditions rule) ctx policyDeps evaluators
      then Some {| policyId := policy_id policy;
                   ruleId := rule_id rule;
                   effect := rule_effect rule |}
      else rules_loop policy rest ctx policyDeps
  end.

Definition evaluatePolicyWithDeps (policy : Policy) (ctx : EvaluationContext)
    (risk : RiskAssessment) (deps : ConditionDeps) : option MatchedPolicy :=
  let policyDeps := deps_with_risk deps risk in
  rules_loop policy (rules policy) ctx policyDeps.

(** One iteration of [for (const policy of applicable)]. *)
Definition aggregate_step (ctx : EvaluationContext) (risk : RiskAssessment)
    (deps : ConditionDeps) (st : LoopState) (policy : Policy) : LoopState :=
  match evaluatePolicyWithDeps policy ctx risk deps with
  | Some m =>
      let pushed := ls_matches st ++ [m] in
      match effect m with
      | EffDeny r =>
          {| ls_matches := pushed;
             hasDeny := true;
             denyReason :=
               if negb (truthy (denyReason st))
               then default ""%string r
               else denyReason st;
             hasAudit := hasAudit st |}
      | EffAudit _ =>
          {| ls_matches := pushed;
             hasDeny := hasDeny st;
             denyReason := denyReason st;
             hasAudit := true |}
      | _ =>
          {| ls_matches := pushed;
             hasDeny := hasDeny st;
             denyReason := denyReason st;
             hasAudit := hasAudit st |}
      end
  | None => st
  end.

Definition evaluateWithDeps (ctx : EvaluationContext) (policies : list Policy)
    (risk : RiskAssessment) (deps : ConditionDeps) : EvalResult :=
  let applicable := List.filter (fun p => matchesScope p ctx) policies in
  let applicable := Array_sort comparePolicies applicable in
  let init := {| ls_matches := []; hasDeny := false;
                 denyReason := ""; hasAudit := false |} in
  let final := fold_left (aggregate_step ctx risk deps) applicable init in
  if hasDeny final then
    {| action := eval_deny;
       reason := if truthy (denyReason final) then denyReason final
                 else "Denied by governance policy";
       matches := ls_matches final |}
  else if hasAudit final then
    {| action := eval_allow;
       reason := "Allowed with audit logging";
       matches := ls_matches final |}
  else
    {| action := eval_allow;
       reason := if (0 <? length (ls_matches final))%nat
                 then "Allowed by governance policy"
                 else "No matching policies";
       matches := ls_matches final |}.

End PolicyEvaluator.

(** ** Frequency tracker ([src/frequency-tracker.ts]) *)

Record FrequencyEntry := {
  fe_timestamp : Z;
  fe_agentId : string;
  fe_sessionKey : string;
  fe_toolName : option string
}.

(** Modelled from the spec: [FrequencyTrackerImpl] of
    [src/frequency-tracker.ts] is not part of the development.  It is "a
    fixed-capacity ring of (timestamp_ms, agent_id, session_key,
    tool_name) slots, head index advancing modulo capacity on each
    record"; [count] "scans the ring and tallies entries whose timestamp
    is within the window and whose scope field matches: scope=agent
    matches by agent_id, scope=session by session_key, scope=global
    matches all"; [clear] "zeroes the ring and head".  The capacity is the
    length of [buffer]. *)
Record FrequencyTrackerImpl := {
  buffer : list (option FrequencyEntry);
  head : nat
}.

Definition tracker_record (entry : FrequencyEntry) (t : FrequencyTrackerImpl)
    : FrequencyTrackerImpl :=
  {| buffer := <[head t := Some entry]> (buffer t);
     head := (S (head t)) mod (length (buffer t)) |}.

Definition scope_matches (sc : FrequencyScope) (agent session : string)
    (entry : FrequencyEntry) : bool :=
  match sc with
  | scope_agent => String.eqb (fe_agentId entry) agent
  | scope_session => String.eqb (fe_sessionKey entry) session
  | scope_global => true
  end.

(** [now] is the wall clock in milliseconds at the time of the call. *)
Definition within_window (now windowSeconds : Z) (entry : FrequencyEntry) : bool :=
  now - windowSeconds * 1000 <=? fe_timestamp entry.

Definition tracker_count (now : Z) (t : FrequencyTrackerImpl)
    (windowSeconds : Z) (sc : FrequencyScope) (agent session : string) : Z :=
  fold_left
    (fun tally slot =>
       match slot with
       | Some entry =>
           if within_window now windowSeconds entry
              && scope_matches sc agent session entry
           then tally + 1 else tally
       | None => tally
       end)
    (buffer t) 0.

Definition tracker_clear (t : FrequencyTrackerImpl) : FrequencyTrackerImpl :=
  {| buffer := List.map (fun _ => None) (buffer t); head := 0%nat |}.

(** The tracker object as handed to the risk assessor at time [now]. *)
Definition tracker_at (now : Z) (t : FrequencyTrackerImpl) : FrequencyTracker :=
  {| count := tracker_count now t |}.

(** ** Risk assessor ([src/risk-assessor.ts]) *)

Definition DEFAULT_TOOL_RISK : gmap string Q :=
  list_to_map
    [ ("gateway", 95#1); ("cron", 90#1); ("elevated", 95#1);
      ("exec", 70#1); ("write", 65#1); ("edit", 60#1);
      ("sessions_spawn", 45#1); ("sessions_send", 50#1);
      ("browser", 40#1); ("message", 40#1);
      ("read", 10#1); ("memory_search", 5#1); ("memory_get", 5#1);
      ("web_search", 15#1); ("web_fetch", 20#1); ("image", 10#1);
      ("canvas", 15#1) ]%string.

(** What [lookupToolRisk] returns.  Both tables are plain objects, so a
    tool name that is a member of [Object.prototype] finds the inherited
    member (a function, or the prototype object under ["__proto__"]),
    which is not [undefined] and is returned as it is. *)
Inductive ToolRisk :=
| RiskNumber (n : Q)
| InheritedMember (key : string).

(** The numeric value of the lookup's result in arithmetic: a function
    or a plain object converts to [NaN]. *)
Definition ToNumber (v : ToolRisk) : MaybeNaN Q :=
  match v with
  | RiskNumber n => Num n
  | InheritedMember _ => NaN
  end.

Definition lookupToolRisk (toolName : option string)
    (overrides : gmap string Q) : ToolRisk :=
  if negb (truthy_opt toolName) then RiskNumber (30 # 1)
  else
    let name := default ""%string toolName in
    match js_get overrides name with
    | Own override => RiskNumber override
    | Inherited => InheritedMember name
    | Undefined =>
        match js_get DEFAULT_TOOL_RISK name with
        | Own builtin => RiskNumber builtin
        | Inherited => InheritedMember name
        | Undefined => RiskNumber (30 # 1)
        end
    end.

Definition isOffHours (hour : Z) : bool :=
  (hour <? 8) || (23 <=? hour).

Definition isExternalTarget (ctx : EvaluationContext) : bool :=
  if truthy_opt (messageTo ctx) then true
  else
    match toolParams ctx with
    | Some params =>
        if match params !! "host"%string with
           | Some (JsString host) => negb (String.eqb host "sandbox")
           | _ => false
           end
        then true
        else
          match params !! "elevated"%string with
          | Some (JsBool true) => true
          | _ => false
          end
    | None => false
    end.

(** [Math.round]: the nearest integer, halves rounded up. *)
Definition Math_round (x : Q) : Z := Qfloor (x + (1 # 2)).

(** Every comparison with [NaN] is false, so [NaN] falls through to
    the last line. *)
Definition scoreToRiskLevel (score : MaybeNaN Q) : RiskLevel :=
  if js_le score (25 # 1) then low
  else if js_le score (50 # 1) then medium
  else if js_le score (75 # 1) then high
  else critical.

Section RiskAssessor.

(** Number-to-string conversion of a template literal. *)
Variable showNumber : Q -> string.

(** The same conversion of the member of [Object.prototype] of the given
    name. *)
Variable showMember : string -> string.

(** [this.overrides], set by the constructor. *)
Variable overrides : gmap string Q.

Definition assess (ctx : EvaluationContext)
    (frequencyTracker : FrequencyTracker) : RiskAssessment :=
  (* Factor 1: tool sensitivity (30%) *)
  let toolRaw := lookupToolRisk (toolName ctx) overrides in
  let toolValue :=
    nan_map (fun raw => ((raw / (100 # 1)) * (30 # 1))%Q) (ToNumber toolRaw) in
  let f1 := {| rf_name := "tool_sensitivity"; rf_weight := 30 # 1;
               rf_value := toolValue;
               rf_description :=
                 "Tool " +:+ default "unknown"%string (toolName ctx)
                 +:+ " risk="
                 +:+ match toolRaw with
                     | RiskNumber n => showNumber n
                     | InheritedMember key => showMember key
                     end |} in
  (* Factor 2: time of day (15%) *)
  let timeValue := if isOffHours (hour (time ctx)) then 15 # 1 else 0 # 1 in
  let f2 := {| rf_name := "time_of_day"; rf_weight := 15 # 1;
               rf_value := Num timeValue;
               rf_description :=
                 if negb (Qle_bool timeValue 0) then "Off-hours operation"
                 else "Business hours" |} in
  (* Factor 3: trust deficit (20%) *)
  let trustValue :=
    ((((100 # 1) - score (trust ctx)) / (100 # 1)) * (20 # 1))%Q in
  let f3 := {| rf_name := "trust_deficit"; rf_weight := 20 # 1;
               rf_value := Num trustValue;
               rf_description :=
                 "Trust score " +:+ showNumber (score (trust ctx)) +:+ "/100" |} in
  (* Factor 4: frequency (15%) *)
  let recentCount :=
    count frequencyTracker 60 scope_agent (agentId ctx) (sessionKey ctx) in
  let freqValue :=
    (Qmin (inject_Z recentCount / (20 # 1)) 1 * (15 # 1))%Q in
  let f4 := {| rf_name := "frequency"; rf_weight := 15 # 1;
               rf_value := Num freqValue;
               rf_description :=
                 showNumber (inject_Z recentCount) +:+ " actions in last 60s" |} in
  (* Factor 5: target scope (20%) *)
  let targetValue := if isExternalTarget ctx then 20 # 1 else 0 # 1 in
  let f5 := {| rf_name := "target_scope"; rf_weight := 20 # 1;
               rf_value := Num targetValue;
               rf_description :=
                 if negb (Qle_bool targetValue 0) then "External target"
                 else "Internal target" |} in
  let factors := [f1; f2; f3; f4; f5] in
  let total :=
    nan_map (fun sum => clamp sum (0 # 1) (100 # 1))
      (fold_left (fun sum f => js_add sum (rf_value f)) factors (Num (0 # 1))) in
  let level := scoreToRiskLevel total in
  {| risk_level := level; risk_score := nan_map Math_round total;
     factors := factors |}.

End RiskAssessor.

(** ** Engine orchestrator ([src/engine.ts]) *)

Inductive VerdictAction := allow | deny | escalate.

(** [evalResult.action] copied into the verdict. *)
Definition verdict_action (a : EvalAction) : VerdictAction :=
  match a with
  | eval_allow => allow
  | eval_deny => deny
  end.

Record Verdict := {
  v_action : VerdictAction;
  v_reason : string;
  v_risk : RiskAssessment;
  matchedPolicies : list MatchedPolicy;
  v_trust : TrustSnapshot;
  evaluationUs : Z
}.

Inductive AuditVerdict :=
| av_allow | av_deny | av_escalate | av_escalate_approved
| av_escalate_denied | av_escalate_timeout | av_error_fallback.

(** [verdict.action as AuditVerdict] *)
Definition as_AuditVerdict (a : VerdictAction) : AuditVerdict :=
  match a with
  | allow => av_allow
  | deny => av_deny
  | escalate => av_escalate
  end.

Record AuditContext := {
  a_hook : PolicyHookName;
  a_agentId : string;
  a_sessionKey : string;
  a_channel : option string;
  a_toolName : option string;
  a_toolParams : option (gmap string JsValue);
  a_messageContent : option string;
  a_messageTo : option string;
  a_crossAgent : option JsValue
}.

Record RiskSummary := {
  rs_level : RiskLevel;
  rs_score : MaybeNaN Z
}.

Record EvaluationStats := {
  totalEvaluations : Z;
  allowCount : Z;
  denyCount : Z;
  errorCount : Z;
  avgEvaluationUs : Q
}.

Inductive FailMode := fail_open | fail_closed.

(** The options of [GovernanceConfig] that [evaluate] reads. *)
Record GovernanceConfig := {
  cfg_failMode : FailMode;
  cfg_audit_enabled : bool;
  cfg_timeWindows : gmap string TimeWindow;
  cfg_toolRiskOverrides : gmap string Q
}.

Record PolicyIndex := {
  byHook : PolicyHookName -> option (list Policy);
  byAgent : gmap string (list Policy);
  ix_regexCache : gmap string RegExp
}.

(** A thrown value, by the text the handler derives from it
    ([e instanceof Error ? e.message : String(e)]). *)
Record Exception := { exn_text : string }.

(** How a call ends: normally with a value, or by throwing. *)
Inductive Outcome (A : Type) :=
| Returned (a : A)
| Thrown (e : Exception).
Arguments Returned {A} a.
Arguments Thrown {A} e.

(** The subsystems the engine owns and calls, over the type [W] of their
    combined mutable state (trust store and session relations, audit
    buffer, frequency ring, clocks, log).  Their sources
    ([src/cross-agent.ts], [src/audit-trail.ts],
    [src/frequency-tracker.ts], [src/util.ts], the host logger) are not
    part of the development; every call may change [W], and every call
    except a clock read may throw.  [conditionEvaluators] is the registry
    returned by [createConditionEvaluators()], [show_number] the
    conversion of a number inside a template literal and [show_member]
    that of an inherited member of [Object.prototype]. *)
Record Subsystems (W : Type) := {
  nowUs : W -> Z * W;
  Date_now : W -> Z * W;
  enrichContext : EvaluationContext -> W -> Outcome EvaluationContext * W;
  frequency_record : FrequencyEntry -> W -> Outcome unit * W;
  frequency_tracker : W -> FrequencyTracker;
  resolveEffectivePolicies :
    EvaluationContext -> PolicyIndex -> W -> Outcome (list Policy) * W;
  audit_record :
    AuditVerdict -> AuditContext -> TrustSnapshot -> RiskSummary ->
    list MatchedPolicy -> Z -> W -> Outcome unit * W;
  logger_error : string -> W -> Outcome unit * W;
  conditionEvaluators : ConditionEvaluatorMap;
  show_number : Q -> string;
  show_member : string -> string
}.
Arguments nowUs {W} _ _.
Arguments Date_now {W} _ _.
Arguments enrichContext {W} _ _ _.
Arguments frequency_record {W} _ _ _.
Arguments frequency_tracker {W} _ _.
Arguments resolveEffectivePolicies {W} _ _ _ _.
Arguments audit_record {W} _ _ _ _ _ _ _ _.
Arguments logger_error {W} _ _ _.
Arguments conditionEvaluators {W} _.
Arguments show_number {W} _.
Arguments show_member {W} _.

(** The engine instance: its own fields and the state of its
    subsystems. *)
Record Engine (W : Type) := {
  stats : EvaluationStats;
  policyIndex : PolicyIndex;
  world : W
}.
Arguments stats {W} _.
Arguments policyIndex {W} _.
Arguments world {W} _.

(** Computations of the engine: a state transformer that may throw.
    State changes made before a throw persist. *)
Definition M (W A : Type) : Type := Engine W -> Outcome A * Engine W.

Definition ret {W A} (a : A) : M W A := fun s => (Returned a, s).

Definition bind {W A B} (m : M W A) (k : A -> M W B) : M W B :=
  fun s =>
    match m s with
    | (Returned a, s') => k a s'
    | (Thrown e, s') => (Thrown e, s')
    end.

(** [try { body } catch (e) { handler }] *)
Definition try_catch {W A} (body : M W A) (handler : Exception -> M W A) : M W A :=
  fun s =>
    match body s with
    | (Returned a, s') => (Returned a, s')
    | (Thrown e, s') => handler e s'
    end.

Notation "'do' x <- m ; k" := (bind m (fun x => k))
  (at level 10, x name, m at level 100, k at level 200).
Notation "'run' m ; k" := (bind m (fun _ => k))
  (at level 10, m at level 100, k at level 200).

(** A call into a subsystem that may throw. *)
Definition call {W A} (f : W -> Outcome A * W) : M W A :=
  fun s =>
    let (r, w) := f (world s) in
    (r, {| stats := stats s; policyIndex := policyIndex s; world := w |}).

(** A call into a subsystem that cannot throw. *)
Definition read {W A} (f : W -> A * W) : M W A :=
  fun s =>
    let (a, w) := f (world s) in
    (Returned a, {| stats := stats s; policyIndex := policyIndex s; world := w |}).

(** Reading a field of the engine or of a subsystem. *)
Definition gets {W A} (f : Engine W -> A) : M W A :=
  fun s => (Returned (f s), s).

Definition modify_stats {W} (f : EvaluationStats -> EvaluationStats) : M W unit :=
  fun s =>
    (Returned tt,
     {| stats := f (stats s); policyIndex := policyIndex s; world := world s |}).

Definition updateStats_pure (action : VerdictAction) (us : Z)
    (st : EvaluationStats) : EvaluationStats :=
  let total := totalEvaluations st + 1 in
  let allowCount' := match action with allow => allowCount st + 1 | _ => allowCount st end in
  let denyCount' := match action with allow => denyCount st | _ => denyCount st + 1 end in
  (* running average *)
  {| totalEvaluations := total;
     allowCount := allowCount';
     denyCount := denyCount';
     errorCount := errorCount st;
     avgEvaluationUs :=
       ((avgEvaluationUs st * inject_Z (total - 1) + inject_Z us)
        / inject_Z total)%Q |}.

Definition initial_stats : EvaluationStats :=
  {| totalEvaluations := 0; allowCount := 0; denyCount := 0;
     errorCount := 0; avgEvaluationUs := 0 # 1 |}.

Section GovernanceEngine.

Context {W : Type}.
Variable sub : Subsystems W.
Variable config : GovernanceConfig.

Definition updateStats (action : VerdictAction) (us : Z) : M W unit :=
  modify_stats (updateStats_pure action us).

(** The body of the [try] block. *)
Definition evaluate_body (ctx : EvaluationContext) (startUs : Z) : M W Verdict :=
  (* 1. cross-agent context enrichment *)
  do enrichedCtx <- call (enrichContext sub ctx) ;
  (* 2. record frequency *)
  do now <- read (Date_now sub) ;
  run call (frequency_record sub
              {| fe_timestamp := now;
                 fe_agentId := agentId enrichedCtx;
                 fe_sessionKey := sessionKey enrichedCtx;
                 fe_toolName := toolName enrichedCtx |}) ;
  (* 3. risk assessment *)
  do tracker <- gets (fun s => frequency_tracker sub (world s)) ;
  let risk := assess (show_number sub) (show_member sub)
                     (cfg_toolRiskOverrides config) enrichedCtx tracker in
  (* 4. resolve effective policies *)
  do index <- gets policyIndex ;
  do effectivePolicies <- call (resolveEffectivePolicies sub enrichedCtx index) ;
  (* 5. policy evaluation *)
  do index <- gets policyIndex ;
  do tracker <- gets (fun s => frequency_tracker sub (world s)) ;
  let deps := {| regexCache := ix_regexCache index;
                 timeWindows := cfg_timeWindows config;
                 risk := risk;
                 frequencyTracker := tracker |} in
  let evalResult :=
    evaluateWithDeps (conditionEvaluators sub) enrichedCtx effectivePolicies
                     risk deps in
  do endUs <- read (nowUs sub) ;
  let elapsedUs := endUs - startUs in
  let verdict := {| v_action := verdict_action (action evalResult);
                    v_reason := reason evalResult;
                    v_risk := risk;
                    matchedPolicies := matches evalResult;
                    v_trust := trust enrichedCtx;
                    evaluationUs := elapsedUs |} in
  (* 6. audit trail *)
  run (if cfg_audit_enabled config then
         let auditCtx := {| a_hook := hook enrichedCtx;
                            a_agentId := agentId enrichedCtx;
                            a_sessionKey := sessionKey enrichedCtx;
                            a_channel := channel enrichedCtx;
                            a_toolName := toolName enrichedCtx;
                            a_toolParams := toolParams enrichedCtx;
                            a_messageContent := messageContent enrichedCtx;
                            a_messageTo := messageTo enrichedCtx;
                            a_crossAgent := crossAgent enrichedCtx |} in
         call (audit_record sub (as_AuditVerdict (v_action verdict)) auditCtx
                 (v_trust verdict)
                 {| rs_level := risk_level risk; rs_score := risk_score risk |}
                 (matchedPolicies verdict) elapsedUs)
       else ret tt) ;
  run updateStats (v_action verdict) elapsedUs ;
  ret verdict.

Definition fallback_action : VerdictAction :=
  match cfg_failMode config with
  | fail_closed => deny
  | fail_open => allow
  end.

Definition fallback_verdict (ctx : EvaluationContext) (elapsedUs : Z) : Verdict :=
  let fallback := fallback_action in
  {| v_action := fallback;
     v_reason := match fallback with
                 | deny => "Governance engine error (fail-closed)"
                 | _ => "Governance engine error (fail-open)"
                 end;
     v_risk := {| risk_level := critical; risk_score := Num 100;
                  factors := [] |};
     matchedPolicies := [];
     v_trust := trust ctx;
     evaluationUs := elapsedUs |}.

Definition fallback_audit_context (ctx : EvaluationContext) : AuditContext :=
  {| a_hook := hook ctx;
     a_agentId := agentId ctx;
     a_sessionKey := sessionKey ctx;
     a_channel := None;
     a_toolName := toolName ctx;
     a_toolParams := None;
     a_messageContent := None;
     a_messageTo := None;
     a_crossAgent := None |}.

Definition count_error (st : EvaluationStats) : EvaluationStats :=
  {| totalEvaluations := totalEvaluations st;
     allowCount := allowCount st;
     denyCount := denyCount st;
     errorCount := errorCount st + 1;
     avgEvaluationUs := avgEvaluationUs st |}.

(** The body of the [catch (e)] block. *)
Definition evaluate_handler (ctx : EvaluationContext) (startUs : Z)
    (e : Exception) : M W Verdict :=
  do endUs <- read (nowUs sub) ;
  let elapsedUs := endUs - startUs in
  run modify_stats count_error ;
  run call (logger_error sub ("[governance] Evaluation error: " +:+ exn_text e)) ;
  run (if cfg_audit_enabled config then
         call (audit_record sub av_error_fallback (fallback_audit_context ctx)
                 (trust ctx)
                 {| rs_level := critical; rs_score := Num 100 |}
                 [] elapsedUs)
       else ret tt) ;
  ret (fallback_verdict ctx elapsedUs).

Definition evaluate (ctx : EvaluationContext) : M W Verdict :=
  do startUs <- read (nowUs sub) ;
  try_catch (evaluate_body ctx startUs) (evaluate_handler ctx startUs).

(** A sequence of [evaluate] calls on one engine, whatever each call
    returns or throws. *)
Definition evaluate_all (ctxs : list EvaluationContext) (s : Engine W) : Engine W :=
  fold_left (fun s ctx => snd (evaluate ctx s)) ctxs s.

End GovernanceEngine.

(** ** Policy evaluator without a dependency bag ([evaluate],
    [evaluatePolicy] of [src/policy-evaluator.ts]) *)

Module PolicyEvaluator.
Section Evaluate.

(** [this.evaluators], set by the constructor. *)
Variable evaluators : ConditionEvaluatorMap.

(** The dependency bag that [evaluatePolicy] builds for itself: an empty
    regex cache, no time windows, a frequency tracker that counts
    nothing. *)
Definition local_deps (risk : RiskAssessment) : ConditionDeps :=
  {| regexCache := ∅;
     timeWindows := ∅;
     risk := risk;
     frequencyTracker := {| count := fun _ _ _ _ => 0 |} |}.

(** The loop over the rules is the one of [evaluatePolicyWithDeps]. *)
Definition evaluatePolicy (policy : Policy) (ctx : EvaluationContext)
    (risk : RiskAssessment) : option MatchedPolicy :=
  let deps := local_deps risk in
  rules_loop evaluators policy (rules policy) ctx deps.

(** One iteration of [for (const policy of applicable)]. *)
Definition aggregate_step (ctx : EvaluationContext) (risk : RiskAssessment)
    (st : LoopState) (policy : Policy) : LoopState :=
  match evaluatePolicy policy ctx risk with
  | Some m =>
      let pushed := ls_matches st ++ [m] in
      match effect m with
      | EffDeny r =>
          {| ls_matches := pushed;
             hasDeny := true;
             denyReason :=
               if negb (truthy (denyReason st))
               then default ""%string r
               else denyReason st;
             hasAudit := hasAudit st |}
      | EffAudit _ =>
          {| ls_matches := pushed;
             hasDeny := hasDeny st;
             denyReason := denyReason st;
             hasAudit := true |}
      | _ =>
          {| ls_matches := pushed;
             hasDeny := hasDeny st;
             denyReason := denyReason st;
             hasAudit := hasAudit st |}
      end
  | None => st
  end.

Definition evaluate (ctx : EvaluationContext) (policies : list Policy)
    (risk : RiskAssessment) : EvalResult :=
  (* filter by scope *)
  let applicable := List.filter (fun p => matchesScope p ctx) policies in
  (* sort by priority (desc), then specificity (desc) *)
  let applicable := Array_sort comparePolicies applicable in
  let init := {| ls_matches := []; hasDeny := false;
                 denyReason := ""; hasAudit := false |} in
  let final := fold_left (aggregate_step ctx risk) applicable init in
  (* deny-wins aggregation *)
  if hasDeny final then
    {| action := eval_deny;
       reason := if truthy (denyReason final) then denyReason final
                 else "Denied by governance policy";
       matches := ls_matches final |}
  else if hasAudit final then
    {| action := eval_allow;
       reason := "Allowed with audit logging";
       matches := ls_matches final |}
  else
    {| action := eval_allow;
       reason := if (0 <? length (ls_matches final))%nat
                 then "Allowed by governance policy"
                 else "No matching policies";
       matches := ls_matches final |}.

End Evaluate.
End PolicyEvaluator.

(** ** Engine status ([getStatus] of [src/engine.ts]) *)

(** The locals of the counting loop of [getStatus]: the set of ids seen
    and the running count. *)
Record PolicyCounter := {
  counted : gset string;
  policyCount : Z
}.

(** The body of [for (const p of policies)]. *)
Definition count_policy (st : PolicyCounter) (p : Policy) : PolicyCounter :=
  if bool_decide (policy_id p ∈ counted st) then st
  else {| counted := {[policy_id p]} ∪ counted st;
          policyCount := policyCount st + 1 |}.

(** The policy count of [getStatus], over the lists that
    [policyIndex.byHook.values()] yields. *)
Definition getStatus_policyCount (values : list (list Policy)) : Z :=
  policyCount
    (fold_left (fun st policies => fold_left count_policy policies st)
               values {| counted := ∅; policyCount := 0 |}).

(** The values of the [byHook] map, taking the hooks in the given
    order.  (A [Map] iterates in insertion order, which is decided where
    the index is built.) *)
Definition byHook_values (index : PolicyIndex) (order : list PolicyHookName)
    : list (list Policy) :=
  omap (byHook index) order.

(** Proof step for a computation of the engine unfolded to its
    state-passing form: case analysis on the next subsystem call or on
    the audit switch. *)
Ltac step sub config :=
  match goal with
  | |- context [if cfg_audit_enabled config then _ else _] =>
      destruct (cfg_audit_enabled config)
  | |- context [nowUs sub ?w] => destruct (nowUs sub w) as [? ?]
  | |- context [Date_now sub ?w] => destruct (Date_now sub w) as [? ?]
  | |- context [enrichContext sub ?c ?w] =>
      destruct (enrichContext sub c w) as [[?|?] ?]
  | |- context [frequency_record sub ?x ?w] =>
      destruct (frequency_record sub x w) as [[?|?] ?]
  | |- context [resolveEffectivePolicies sub ?c ?i ?w] =>
      destruct (resolveEffectivePolicies sub c i w) as [[?|?] ?]
  | |- context [audit_record sub ?v ?c ?t ?r ?m ?u ?w] =>
      destruct (audit_record sub v c t r m u w) as [[?|?] ?]
  | |- context [logger_error sub ?m ?w] =>
      destruct (logger_error sub m w) as [[?|?] ?]
  end;
  cbn [world stats policyIndex fst snd].

(** ** Reference notions used in the statements *)

Definition is_deny (e : RuleEffect) : bool :=
  match e with EffDeny _ => true | _ => false end.

Definition is_escalate (e : RuleEffect) : bool :=
  match e with EffEscalate _ _ _ => true | _ => false end.

(** The reason text of a deny effect ([""] when there is none). *)
Definition deny_text (e : RuleEffect) : string :=
  match e with EffDeny r => default ""%string r | _ => ""%string end.

(** The first non-empty reason among the deny contributions, in list
    order. *)
Fixpoint first_deny_reason (ms : list MatchedPolicy) : option string :=
  match ms with
  | [] => None
  | m :: rest =>
      if is_deny (effect m) && truthy (deny_text (effect m))
      then Some (deny_text (effect m))
      else first_deny_reason rest
  end.

(** The policies in scope, in evaluation order. *)
Definition applicable (ctx : EvaluationContext) (policies : list Policy) : list Policy :=
  Array_sort comparePolicies (List.filter (fun p => matchesScope p ctx) policies).

(** The contributions of the policies in scope, in evaluation order. *)
Definition contributions (evaluators : ConditionEvaluatorMap)
    (ctx : EvaluationContext) (policies : list Policy)
    (risk : RiskAssessment) (deps : ConditionDeps) : list MatchedPolicy :=
  omap (fun p => evaluatePolicyWithDeps evaluators p ctx risk deps)
       (applicable ctx policies).

(** [a] is evaluated no later than [b]: higher priority first, then
    higher specificity. *)
Definition precedes (a b : Policy) : Prop :=
  default 0 (priority b) < default 0 (priority a)
  \/ (default 0 (priority b) = default 0 (priority a)
      /\ policySpecificity b <= policySpecificity a).

(** [a] and [b] have the same priority and the same specificity. *)
Definition same_rank (a b : Policy) : bool :=
  (default 0 (priority a) =? default 0 (priority b))
  && (policySpecificity a =? policySpecificity b).

(** The trust gates of a rule let the tier through. *)
Definition gates_permit (r : Rule) (t : TrustTier) : Prop :=
  (forall m, minTrust r = Some m -> tier_rank m <= tier_rank t)
  /\ (forall m, maxTrust r = Some m -> tier_rank t <= tier_rank m).

(** Every condition of the rule evaluates to true. *)
Definition conditions_hold (evaluators : ConditionEvaluatorMap) (r : Rule)
    (ctx : EvaluationContext) (deps : ConditionDeps) : Prop :=
  Forall (fun c => evaluators (condition_type c) c ctx deps = true)
         (rule_conditions r).

Definition rule_satisfied (evaluators : ConditionEvaluatorMap) (r : Rule)
    (ctx : EvaluationContext) (deps : ConditionDeps) : Prop :=
  gates_permit r (tier (trust ctx)) /\ conditions_hold evaluators r ctx deps.

(** The scope of the policy rules the context out. *)
Definition out_of_scope (p : Policy) (ctx : EvaluationContext) : Prop :=
  (exists l, excludeAgents (scope p) = Some l /\ In (agentId ctx) l)
  \/ (exists l, channels (scope p) = Some l /\ l <> []
                /\ forall c, channel ctx = Some c -> ~ In c l).

(** The recorded entries still held by the ring. *)
Definition entries (t : FrequencyTrackerImpl) : list FrequencyEntry :=
  omap (fun slot => slot) (buffer t).

(** Number of entries satisfying [keep]. *)
Definition tally (keep : FrequencyEntry -> bool) (t : FrequencyTrackerImpl) : Z :=
  Z.of_nat (length (List.filter keep (entries t))).

(** The entries of the last 60 seconds recorded for the agent of the
    context. *)
Definition recent_for_agent (now : Z) (ctx : EvaluationContext)
    (entry : FrequencyEntry) : bool :=
  within_window now 60 entry && String.eqb (fe_agentId entry) (agentId ctx).

(** The entries of the last 60 seconds recorded for the agent of the
    context in the session of the context. *)
Definition recent_for_agent_and_session (now : Z) (ctx : EvaluationContext)
    (entry : FrequencyEntry) : bool :=
  within_window now 60 entry
  && String.eqb (fe_agentId entry) (agentId ctx)
  && String.eqb (fe_sessionKey entry) (sessionKey ctx).

(** The sum of the factor values of an assessment. *)
Definition factor_sum (r : RiskAssessment) : MaybeNaN Q :=
  fold_left (fun sum f => js_add sum (rf_value f)) (factors r) (Num (0 # 1)).

(** The factor of the given name, if the assessment lists one. *)
Definition factor_named (name : string) (r : RiskAssessment) : option RiskFactor :=
  List.find (fun f => String.eqb (rf_name f) name) (factors r).

(** A context condition that sets none of its optional fields. *)
Definition unconstrained : ContextCondition :=
  {| conversationContains := None; messageContains := None;
     hasMetadata := None; cc_channel := None; cc_sessionKey := None |}.

(** The condition reads a field that the context, or the dependency bag,
    does not provide. *)
Inductive MissingField : Condition -> EvaluationContext -> ConditionDeps -> Prop :=
| missing_conversation c ctx deps :
    conversationContains c <> None ->
    default [] (conversationContext ctx) = [] ->
    MissingField (CContext c) ctx deps
| missing_message c ctx deps :
    messageContains c <> None ->
    default ""%string (messageContent ctx) = ""%string ->
    MissingField (CContext c) ctx deps
| missing_metadata c ctx deps keys k :
    hasMetadata c = Some keys ->
    metadata ctx = None ->
    In k (toArray keys) ->
    ~ In k Object_prototype_keys ->
    MissingField (CContext c) ctx deps
| missing_channel c ctx deps :
    cc_channel c <> None ->
    default ""%string (channel ctx) = ""%string ->
    MissingField (CContext c) ctx deps
| missing_sessionKey c ctx deps :
    cc_sessionKey c <> None ->
    sessionKey ctx = ""%string ->
    MissingField (CContext c) ctx deps
| missing_window c ctx deps name :
    tm_window c = Some name ->
    name <> ""%string ->
    timeWindows deps !! name = None ->
    ~ In name Object_prototype_keys ->
    MissingField (CTime c) ctx deps.

Definition is_audit (e : RuleEffect) : bool :=
  match e with EffAudit _ => true | _ => false end.

(** The rank of a risk level: low < medium < high < critical. *)
Definition risk_rank (l : RiskLevel) : Z :=
  match l with
  | low => 0
  | medium => 1
  | high => 2
  | critical => 3
  end.

(** The context with another trust snapshot. *)
Definition with_trust (ctx : EvaluationContext) (t : TrustSnapshot)
    : EvaluationContext :=
  {| hook := hook ctx; agentId := agentId ctx; sessionKey := sessionKey ctx;
     channel := channel ctx; toolName := toolName ctx;
     toolParams := toolParams ctx; messageContent := messageContent ctx;
     messageTo := messageTo ctx; timestamp := timestamp ctx;
     time := time ctx; trust := t;
     conversationContext := conversationContext ctx;
     metadata := metadata ctx; crossAgent := crossAgent ctx |}.

(** An optional field is left out or kept. *)
Definition field_dropped_or_kept {A} (less more : option A) : Prop :=
  less = None \/ less = more.

(** [less] sets a subset of the fields of [more], with the same
    values. *)
Definition fewer_fields (less more : ContextCondition) : Prop :=
  field_dropped_or_kept (conversationContains less) (conversationContains more)
  /\ field_dropped_or_kept (messageContains less) (messageContains more)
  /\ field_dropped_or_kept (hasMetadata less) (hasMetadata more)
  /\ field_dropped_or_kept (cc_channel less) (cc_channel more)
  /\ field_dropped_or_kept (cc_sessionKey less) (cc_sessionKey more).

(** A run of [updateStats] calls, one per (action, duration) pair. *)
Definition updateStats_all (calls : list (VerdictAction * Z))
    (st : EvaluationStats) : EvaluationStats :=
  fold_left (fun st call => updateStats_pure (fst call) (snd call) st) calls st.

(** The subsystems with another audit trail. *)
Definition with_audit_record {W} (sub : Subsystems W)
    (record : AuditVerdict -> AuditContext -> TrustSnapshot -> RiskSummary ->
              list MatchedPolicy -> Z -> W -> Outcome unit * W)
    : Subsystems W :=
  {| nowUs := nowUs sub;
     Date_now := Date_now sub;
     enrichContext := enrichContext sub;
     frequency_record := frequency_record sub;
     frequency_tracker := frequency_tracker sub;
     resolveEffectivePolicies := resolveEffectivePolicies sub;
     audit_record := record;
     logger_error := logger_error sub;
     conditionEvaluators := conditionEvaluators sub;
     show_number := show_number sub;
     show_member := show_member sub |}.

(** The sum of the durations of a run of [updateStats] calls. *)
Definition total_duration (calls : list (VerdictAction * Z)) : Z :=
  fold_right (fun call sum => snd call + sum) 0 calls.

(** The ids of the policies of the listed lists. *)
Definition listed_ids (values : list (list Policy)) : list string :=
  List.map policy_id (concat values).

(** The minute of the day of the context's clock. *)
Definition minute_of_day (ctx : EvaluationContext) : Z :=
  hour (time ctx) * 60 + minute (time ctx).

(** Two policies with the same id, the same rules and the same
    [excludeAgents] and [channels]; they may differ in priority, in the
    enabled flag and in the [agents] and [hooks] of the scope. *)
Definition same_rules_and_filter (p q : Policy) : Prop :=
  policy_id p = policy_id q
  /\ rules p = rules q
  /\ excludeAgents (scope p) = excludeAgents (scope q)
  /\ channels (scope p) = channels (scope q).

(** The tool name, if any, is not a member of [Object.prototype]: the
    lookups of [lookupToolRisk] then find own properties only, and
    numbers. *)
Definition own_tool_name (toolName : option string) : Prop :=
  forall name, toolName = Some name -> ~ In name Object_prototype_keys.

(** ** Sample inputs *)

Module Sample.

Definition no_evaluators : ConditionEvaluatorMap := fun _ _ _ _ => false.

Definition noon : TimeContext :=
  {| hour := 12; minute := 0; dayOfWeek := 2;
     date := "2026-02-17"; timezone := "UTC" |}.

Definition ctx : EvaluationContext :=
  {| hook := before_tool_call; agentId := "main";
     sessionKey := "agent:main"; channel := None;
     toolName := Some "exec"%string; toolParams := None;
     messageContent := None; messageTo := None;
     timestamp := 0; time := noon;
     trust := {| score := 60 # 1; tier := trusted |};
     conversationContext := None; metadata := None;
     crossAgent := None |}.

(** [ctx] with a tool name that every plain object inherits. *)
Definition ctx_constructor : EvaluationContext :=
  {| hook := before_tool_call; agentId := "main";
     sessionKey := "agent:main"; channel := None;
     toolName := Some "constructor"%string; toolParams := None;
     messageContent := None; messageTo := None;
     timestamp := 0; time := noon;
     trust := {| score := 60 # 1; tier := trusted |};
     conversationContext := None; metadata := None;
     crossAgent := None |}.

Definition no_risk : RiskAssessment :=
  {| risk_level := low; risk_score := Num 0; factors := [] |}.

Definition deps : ConditionDeps :=
  {| regexCache := ∅; timeWindows := ∅; risk := no_risk;
     frequencyTracker := {| count := fun _ _ _ _ => 0 |} |}.

Definition any_scope : PolicyScope :=
  {| agents := None; excludeAgents := None; channels := None; hooks := None |}.

(** A rule without conditions and without trust gates. *)
Definition always (id : string) (e : RuleEffect) : Rule :=
  {| rule_id := id; rule_conditions := []; rule_effect := e;
     minTrust := None; maxTrust := None |}.

Definition policy_of (id : string) (sc : PolicyScope) (rs : list Rule)
    (en : option bool) (pri : option Z) : Policy :=
  {| policy_id := id; policy_name := id; policy_version := "1.0.0";
     scope := sc; rules := rs; enabled := en; priority := pri |}.

(** Two deny policies; the one evaluated first carries an empty
    reason. *)
Definition deny_silent : Policy :=
  policy_of "deny-silent" any_scope
    [always "r1" (EffDeny (Some ""%string))] None (Some 10).

Definition deny_shell : Policy :=
  policy_of "deny-shell" any_scope
    [always "r1" (EffDeny (Some "no shell"%string))] None None.

Definition allow_audit : Policy :=
  policy_of "audit-exec" any_scope
    [always "r1" (EffAudit None)] None (Some 10).

(** [deny_shell] with another priority, switched off and scoped to
    another agent and to one hook. *)
Definition deny_shell_rescoped : Policy :=
  policy_of "deny-shell"
    {| agents := Some ["other"%string]; excludeAgents := None;
       channels := None; hooks := Some [before_tool_call] |}
    [always "r1" (EffDeny (Some "no shell"%string))] (Some false) (Some 99).

Definition escalate_exec : Policy :=
  policy_of "escalate-exec" any_scope
    [always "r1" (EffEscalate human (Some 300) (Some fallback_deny))] None None.

Definition disabled_deny : Policy :=
  policy_of "disabled" any_scope
    [always "r1" (EffDeny (Some "switched off"%string))] (Some false) None.

Definition excluded_deny : Policy :=
  policy_of "not-for-main"
    {| agents := None; excludeAgents := Some ["main"%string];
       channels := None; hooks := None |}
    [always "r1" (EffDeny (Some "others only"%string))] None None.

(** Stand-ins for the regular expression engine and for the
    evaluators of the other condition types. *)
Definition new_RegExp (pattern : string) : option RegExp :=
  Some {| test := str_includes pattern |}.

Definition globToRegex (pattern : string) : RegExp :=
  {| test := String.eqb pattern |}.

Definition never : ConditionEvaluatorFn := fun _ _ _ => false.

Definition evaluators : ConditionEvaluatorMap :=
  createConditionEvaluators new_RegExp globToRegex
    never never never never never never.

Definition show (n : Q) : string := "#".

Definition show_inherited (key : string) : string := "function".

(** A rule that only privileged agents reach, followed by one for
    everybody. *)
Definition gated : Policy :=
  policy_of "gated" any_scope
    [ {| rule_id := "privileged-only"; rule_conditions := [];
         rule_effect := EffDeny (Some "privileged"%string);
         minTrust := Some privileged; maxTrust := None |};
      always "everyone" EffAllow ] None None.

(** A rule guarded by a context condition without fields. *)
Definition open_rule : Rule :=
  {| rule_id := "open"; rule_conditions := [CContext unconstrained];
     rule_effect := EffAudit None;
     minTrust := Some standard; maxTrust := None |}.

Definition open_policy : Policy :=
  policy_of "open" any_scope [open_rule] None None.

(** Conditions on fields that [ctx] lacks. *)
Definition on_channel : Condition :=
  CContext {| conversationContains := None; messageContains := None;
              hasMetadata := None;
              cc_channel := Some (One "ops"%string);
              cc_sessionKey := None |}.

Definition on_metadata (keys : OneOrMany string) : Condition :=
  CContext {| conversationContains := None; messageContains := None;
              hasMetadata := Some keys;
              cc_channel := None; cc_sessionKey := None |}.

Definition in_window (name : string) : Condition :=
  CTime {| tm_window := Some name; tm_after := None; tm_before := None;
           tm_days := None |}.

(** [exec] by a privileged agent with trust score 83, at noon, one
    action on record: 21 + 0 + 3.4 + 0.75 + 0 = 25.15. *)
Definition ctx_near_threshold : EvaluationContext :=
  {| hook := before_tool_call; agentId := "main";
     sessionKey := "agent:main"; channel := None;
     toolName := Some "exec"%string; toolParams := None;
     messageContent := None; messageTo := None;
     timestamp := 0; time := noon;
     trust := {| score := 83 # 1; tier := privileged |};
     conversationContext := None; metadata := None;
     crossAgent := None |}.

Definition one_on_record : FrequencyTracker :=
  {| count := fun _ _ _ _ => 1 |}.

(** A ring of four slots holding one action of agent [main] in another
    session, recorded one second before [now = 2000]. *)
Definition other_session : FrequencyTrackerImpl :=
  tracker_record
    {| fe_timestamp := 1000; fe_agentId := "main";
       fe_sessionKey := "agent:main:subagent:7";
       fe_toolName := Some "exec"%string |}
    {| buffer := [None; None; None; None]; head := 0%nat |}.

(** Subsystems over a world that logs what was audited and what was
    reported as an error. *)
Record World := {
  audited : list AuditVerdict;
  logged : list string
}.

Definition quiet : World := {| audited := []; logged := [] |}.

Definition working : Subsystems World :=
  {| nowUs := fun w => (0, w);
     Date_now := fun w => (0, w);
     enrichContext := fun c w => (Returned c, w);
     frequency_record := fun _ w => (Returned tt, w);
     frequency_tracker := fun _ => one_on_record;
     resolveEffectivePolicies := fun _ _ w => (Returned [deny_shell], w);
     audit_record := fun v _ _ _ _ _ w =>
       (Returned tt, {| audited := audited w ++ [v]; logged := logged w |});
     logger_error := fun msg w =>
       (Returned tt, {| audited := audited w; logged := logged w ++ [msg] |});
     conditionEvaluators := evaluators;
     show_number := show;
     show_member := show_inherited |}.

(** The policy resolver throws. *)
Definition broken_resolver : Subsystems World :=
  {| nowUs := fun w => (0, w);
     Date_now := fun w => (0, w);
     enrichContext := fun c w => (Returned c, w);
     frequency_record := fun _ w => (Returned tt, w);
     frequency_tracker := fun _ => one_on_record;
     resolveEffectivePolicies := fun _ _ w =>
       (Thrown {| exn_text := "no index" |}, w);
     audit_record := fun v _ _ _ _ _ w =>
       (Returned tt, {| audited := audited w ++ [v]; logged := logged w |});
     logger_error := fun msg w =>
       (Returned tt, {| audited := audited w; logged := logged w ++ [msg] |});
     conditionEvaluators := evaluators;
     show_number := show;
     show_member := show_inherited |}.

(** The audit trail throws on every record. *)
Definition broken_audit : Subsystems World :=
  {| nowUs := fun w => (0, w);
     Date_now := fun w => (0, w);
     enrichContext := fun c w => (Returned c, w);
     frequency_record := fun _ w => (Returned tt, w);
     frequency_tracker := fun _ => one_on_record;
     resolveEffectivePolicies := fun _ _ w => (Returned [deny_shell], w);
     audit_record := fun _ _ _ _ _ _ w =>
       (Thrown {| exn_text := "audit buffer unavailable" |}, w);
     logger_error := fun msg w =>
       (Returned tt, {| audited := audited w; logged := logged w ++ [msg] |});
     conditionEvaluators := evaluators;
     show_number := show;
     show_member := show_inherited |}.

Definition config (mode : FailMode) (audit : bool) : GovernanceConfig :=
  {| cfg_failMode := mode; cfg_audit_enabled := audit;
     cfg_timeWindows := ∅; cfg_toolRiskOverrides := ∅ |}.

Definition no_index : PolicyIndex :=
  {| byHook := fun _ => None; byAgent := ∅; ix_regexCache := ∅ |}.

Definition fresh : Engine World :=
  {| stats := initial_stats; policyIndex := no_index; world := quiet |}.

(** A regular expression engine that rejects every pattern. *)
Definition no_RegExp (pattern : string) : option RegExp := None.

(** A context on channel [ops] with a ticket in its metadata. *)
Definition ctx_ops : EvaluationContext :=
  {| hook := before_tool_call; agentId := "main";
     sessionKey := "agent:main"; channel := Some "ops"%string;
     toolName := Some "exec"%string; toolParams := None;
     messageContent := None; messageTo := None;
     timestamp := 0; time := noon;
     trust := {| score := 60 # 1; tier := trusted |};
     conversationContext := None;
     metadata := Some {[ "ticket"%string := JsString "OPS-1" ]};
     crossAgent := None |}.

Definition cc_ops : ContextCondition :=
  {| conversationContains := None; messageContains := None;
     hasMetadata := None;
     cc_channel := Some (Many ["ops"; "oncall"]%string);
     cc_sessionKey := None |}.

Definition cc_ops_ticket_session : ContextCondition :=
  {| conversationContains := None; messageContains := None;
     hasMetadata := Some (One "ticket"%string);
     cc_channel := Some (Many ["ops"; "oncall"]%string);
     cc_sessionKey := Some "agent:main"%string |}.

(** Time conditions and a named window. *)
Definition office : TimeWindow :=
  {| tw_name := "office"; tw_start := "09:00"; tw_end := "17:00";
     tw_days := Some [1; 2; 3; 4; 5]; tw_timezone := None |}.

Definition deps_office : ConditionDeps :=
  {| regexCache := ∅; timeWindows := {[ "office"%string := office ]};
     risk := no_risk;
     frequencyTracker := {| count := fun _ _ _ _ => 0 |} |}.

Definition tm (w a b : option string) (d : option (list Z)) : TimeCondition :=
  {| tm_window := w; tm_after := a; tm_before := b; tm_days := d |}.

(** A policy whose only rule waits for the named window [night]. *)
Definition night_policy : Policy :=
  policy_of "night" any_scope
    [ {| rule_id := "night-deny"; rule_conditions := [in_window "night"];
         rule_effect := EffDeny (Some "night"%string);
         minTrust := None; maxTrust := None |} ] None None.

Definition none_on_record : FrequencyTracker :=
  {| count := fun _ _ _ _ => 0 |}.

End Sample.

(** * Properties *)

(** ** Helpers *)

Lemma includes_In (l : list string) (x : string) :
  includes l x = true <-> In x l.
Proof.
  unfold includes. rewrite existsb_exists. split.
  - intros (y & Hy & Heq). apply String.eqb_eq in Heq. now subst.
  - intros H. exists x. split; [assumption | apply String.eqb_refl].
Qed.

Lemma truthy_empty : truthy "" = false.
Proof. reflexivity. Qed.
Section SortProperties.
Context {A : Type}.
Variable compare : A -> A -> Z.

Lemma sort_insert_Permutation (a : A) (l : list A) :
  Permutation (sort_insert compare a l) (a :: l).
Proof.
  induction l as [|x l IH]; simpl.
  - reflexivity.
  - destruct (compare a x <=? 0).
    + reflexivity.
    + rewrite IH. apply perm_swap.
Qed.

Lemma Array_sort_Permutation (l : list A) :
  Permutation (Array_sort compare l) l.
Proof.
  induction l as [|a l IH]; simpl.
  - reflexivity.
  - rewrite sort_insert_Permutation. now rewrite IH.
Qed.

Hypothesis compare_total : forall a b, 0 < compare a b -> compare b a <= 0.
Hypothesis compare_trans :
  forall a b c, compare a b <= 0 -> compare b c <= 0 -> compare a c <= 0.

Lemma sort_insert_sorted (a : A) (l : list A) :
  StronglySorted (before compare) l -> StronglySorted (before compare) (sort_insert compare a l).
Proof using compare_total compare_trans.
  induction 1 as [|x l Hs IH Hx]; simpl.
  - repeat constructor.
  - destruct (Z.leb_spec (compare a x) 0) as [Hle | Hgt].
    + constructor; [now constructor |].
      constructor; [exact Hle |].
      eapply List.Forall_impl; [| exact Hx].
      intros y Hy. eapply compare_trans; eauto.
    + constructor; [exact IH |].
      eapply Permutation_Forall.
      * symmetry. apply sort_insert_Permutation.
      * constructor; [now apply compare_total | exact Hx].
Qed.

Lemma Array_sort_sorted (l : list A) :
  StronglySorted (before compare) (Array_sort compare l).
Proof using compare_total compare_trans.
  induction l as [|a l IH]; simpl.
  - constructor.
  - now apply sort_insert_sorted.
Qed.

(** Stability: among elements that the comparator does not separate,
    the order of the input is kept. *)
Lemma sort_insert_filter (P : A -> bool) (a : A) (l : list A) :
  (forall x, P a = true -> P x = true -> compare a x <= 0) ->
  List.filter P (sort_insert compare a l) = List.filter P (a :: l).
Proof.
  intros HP. induction l as [|x l IH]; [reflexivity |].
  cbn [sort_insert].
  destruct (Z.leb_spec (compare a x) 0) as [Hle | Hgt]; [reflexivity |].
  cbn [List.filter] in *. rewrite IH.
  destruct (P a) eqn:Pa, (P x) eqn:Px; try reflexivity.
  specialize (HP x eq_refl Px). lia.
Qed.

Lemma Array_sort_stable (P : A -> bool) (l : list A) :
  (forall x y, P x = true -> P y = true -> compare x y <= 0) ->
  List.filter P (Array_sort compare l) = List.filter P l.
Proof.
  intros HP. induction l as [|a l IH]; [reflexivity |].
  change (Array_sort compare (a :: l))
    with (sort_insert compare a (Array_sort compare l)).
  rewrite sort_insert_filter by (intros x; apply HP).
  cbn [List.filter]. now rewrite IH.
Qed.

Lemma Array_sort_stable_id (l : list A) :
  StronglySorted (before compare) l -> Array_sort compare l = l.
Proof.
  induction 1 as [|x l Hs IH Hx]; simpl.
  - reflexivity.
  - change (sort_insert compare x (Array_sort compare l) = x :: l). rewrite IH. destruct l as [|y l]; simpl; [reflexivity|].
    inversion Hx as [|? ? Hy _]; subst. unfold before in Hy.
    destruct (Z.leb_spec (compare x y) 0); [reflexivity | lia].
Qed.
End SortProperties.

(** ** The policy evaluator *)

Lemma first_deny_reason_truthy (ms : list MatchedPolicy) (r : string) :
  first_deny_reason ms = Some r -> truthy r = true.
Proof.
  induction ms as [|m ms IH]; simpl; [discriminate |].
  destruct (is_deny (effect m) && truthy (deny_text (effect m))) eqn:E.
  - intros [= <-]. now apply andb_true_iff in E.
  - exact IH.
Qed.

Section EvaluatorProperties.

Variable evaluators : ConditionEvaluatorMap.
Variable ctx : EvaluationContext.
Variable risk : RiskAssessment.
Variable deps : ConditionDeps.

Lemma falsy_empty (s : string) : truthy s = false -> s = ""%string.
Proof. unfold truthy. intros H. now apply negb_false_iff, String.eqb_eq in H. Qed.

(** One iteration of the loop, for a policy that makes no
    contribution and for one that contributes [m]. *)
Lemma aggregate_step_none (st : LoopState) (p : Policy) :
  evaluatePolicyWithDeps evaluators p ctx risk deps = None ->
  aggregate_step evaluators ctx risk deps st p = st.
Proof. unfold aggregate_step. now intros ->. Qed.

Lemma aggregate_step_some (st : LoopState) (p : Policy) (m : MatchedPolicy) :
  evaluatePolicyWithDeps evaluators p ctx risk deps = Some m ->
  let st' := aggregate_step evaluators ctx risk deps st p in
  ls_matches st' = ls_matches st ++ [m]
  /\ hasDeny st' = hasDeny st || is_deny (effect m)
  /\ denyReason st' =
       (if truthy (denyReason st) then denyReason st
        else deny_text (effect m)).
Proof.
  intros E. unfold aggregate_step. rewrite E.
  destruct (effect m); simpl; rewrite ?orb_false_r, ?orb_true_r;
    repeat split;
    destruct (truthy (denyReason st)) eqn:T; simpl; try reflexivity;
    now apply falsy_empty in T.
Qed.

(** What the aggregation loop leaves in its locals after a run over
    [ps], started in state [st]. *)
Lemma aggregate_loop (ps : list Policy) (st : LoopState) :
  let ms := omap (fun p => evaluatePolicyWithDeps evaluators p ctx risk deps) ps in
  let final := fold_left (aggregate_step evaluators ctx risk deps) ps st in
  ls_matches final = ls_matches st ++ ms
  /\ hasDeny final = hasDeny st || existsb (fun m => is_deny (effect m)) ms
  /\ denyReason final =
       (if truthy (denyReason st) then denyReason st
        else default ""%string (first_deny_reason ms)).
Proof.
  revert st. induction ps as [|p ps IH]; intros st; cbn [fold_left omap list_omap].
  - cbn. rewrite app_nil_r, orb_false_r. repeat split.
    destruct (truthy (denyReason st)) eqn:T; [reflexivity | now apply falsy_empty in T].
  - destruct (evaluatePolicyWithDeps evaluators p ctx risk deps) as [m|] eqn:Em.
    + destruct (aggregate_step_some st p m Em) as (Sm & Sd & Sr).
      destruct (IH (aggregate_step evaluators ctx risk deps st p)) as (IHm & IHd & IHr).
      cbn zeta in *. rewrite IHm, IHd, IHr, Sm, Sd, Sr. cbn [existsb first_deny_reason].
      rewrite <- app_assoc, orb_assoc. repeat split.
      destruct (truthy (denyReason st)) eqn:T; [now rewrite T |].
      destruct (is_deny (effect m)) eqn:D; cbn [andb].
      * destruct (truthy (deny_text (effect m))); reflexivity.
      * destruct (effect m); try discriminate; reflexivity.
    + rewrite (aggregate_step_none st p Em). apply IH.
Qed.

Lemma evaluateWithDeps_matches (policies : list Policy) :
  matches (evaluateWithDeps evaluators ctx policies risk deps)
  = contributions evaluators ctx policies risk deps.
Proof.
  unfold evaluateWithDeps, contributions, applicable.
  match goal with
  | |- context [fold_left ?f ?ps ?st] =>
      destruct (aggregate_loop ps st) as (Hm & _ & _)
  end.
  repeat match goal with |- context [if ?b then _ else _] => destruct b end;
    simpl; exact Hm.
Qed.

Lemma evaluateWithDeps_action (policies : list Policy) :
  action (evaluateWithDeps evaluators ctx policies risk deps)
  = if existsb (fun m => is_deny (effect m))
               (contributions evaluators ctx policies risk deps)
    then eval_deny else eval_allow.
Proof.
  unfold evaluateWithDeps, contributions, applicable.
  match goal with
  | |- context [fold_left ?f ?ps ?st] =>
      destruct (aggregate_loop ps st) as (_ & Hd & _)
  end.
  simpl in Hd. rewrite Hd.
  repeat match goal with |- context [if ?b then _ else _] => destruct b end;
    reflexivity.
Qed.

Lemma evaluateWithDeps_deny_reason (policies : list Policy) :
  action (evaluateWithDeps evaluators ctx policies risk deps) = eval_deny ->
  reason (evaluateWithDeps evaluators ctx policies risk deps)
  = default "Denied by governance policy"%string
      (first_deny_reason (contributions evaluators ctx policies risk deps)).
Proof.
  unfold evaluateWithDeps, contributions, applicable.
  match goal with
  | |- context [fold_left ?f ?ps ?st] =>
      destruct (aggregate_loop ps st) as (_ & _ & Hr); set (final := fold_left f ps st) in *
  end.
  simpl in Hr.
  destruct (hasDeny final); simpl.
  - intros _. rewrite Hr.
    destruct (first_deny_reason _) as [r|] eqn:E; simpl; [| reflexivity].
    now rewrite (first_deny_reason_truthy _ _ E).
  - destruct (hasAudit final); discriminate.
Qed.

End EvaluatorProperties.

(** *** Evaluation order *)

Lemma comparePolicies_precedes (a b : Policy) :
  comparePolicies a b <= 0 <-> precedes a b.
Proof.
  unfold comparePolicies, precedes.
  destruct (Z.eqb_spec (default 0 (priority b) - default 0 (priority a)) 0);
    simpl; lia.
Qed.

Lemma comparePolicies_total (a b : Policy) :
  0 < comparePolicies a b -> comparePolicies b a <= 0.
Proof.
  unfold comparePolicies.
  destruct (Z.eqb_spec (default 0 (priority b) - default 0 (priority a)) 0);
    destruct (Z.eqb_spec (default 0 (priority a) - default 0 (priority b)) 0);
    simpl; lia.
Qed.

Lemma comparePolicies_trans (a b c : Policy) :
  comparePolicies a b <= 0 -> comparePolicies b c <= 0 ->
  comparePolicies a c <= 0.
Proof.
  rewrite !comparePolicies_precedes. unfold precedes. lia.
Qed.

Lemma StronglySorted_weaken {A} (R1 R2 : A -> A -> Prop) (l : list A) :
  (forall a b, R1 a b -> R2 a b) ->
  StronglySorted R1 l -> StronglySorted R2 l.
Proof.
  intros HR. induction 1 as [|x l Hs IH Hx]; constructor; [assumption |].
  eapply List.Forall_impl; [| exact Hx]. intros y. apply HR.
Qed.

(** The policies in scope are evaluated by descending priority, then by
    descending specificity; ties keep the order of the input. *)
Lemma applicable_sorted (ctx : EvaluationContext) (policies : list Policy) :
  StronglySorted precedes (applicable ctx policies).
Proof.
  unfold applicable.
  apply StronglySorted_weaken with (R1 := before comparePolicies).
  - intros a b. apply comparePolicies_precedes.
  - apply Array_sort_sorted.
    + apply comparePolicies_total.
    + apply comparePolicies_trans.
Qed.

Lemma applicable_Permutation (ctx : EvaluationContext) (policies : list Policy) :
  Permutation (applicable ctx policies)
              (List.filter (fun p => matchesScope p ctx) policies).
Proof. apply Array_sort_Permutation. Qed.

(** Policies of equal priority and specificity are evaluated in the
    order of the input. *)
Lemma applicable_stable (ctx : EvaluationContext) (policies : list Policy)
    (p : Policy) :
  List.filter (same_rank p) (applicable ctx policies)
  = List.filter (same_rank p)
      (List.filter (fun q => matchesScope q ctx) policies).
Proof.
  apply Array_sort_stable. intros x y Hx Hy.
  unfold same_rank in Hx, Hy. apply andb_true_iff in Hx, Hy.
  rewrite !Z.eqb_eq in Hx, Hy. unfold comparePolicies.
  destruct (Z.eqb_spec (default 0 (priority y) - default 0 (priority x)) 0);
    simpl; lia.
Qed.

Lemma applicable_In (ctx : EvaluationContext) (policies : list Policy) (p : Policy) :
  In p (applicable ctx policies) <-> In p policies /\ matchesScope p ctx = true.
Proof.
  pose proof (applicable_Permutation ctx policies) as HP.
  pose proof (List.filter_In (fun p => matchesScope p ctx) p policies) as HF.
  simpl in HF. rewrite <- HF. split; apply Permutation_in;
    [exact HP | symmetry; exact HP].
Qed.

Lemma contributions_In (evaluators : ConditionEvaluatorMap)
    (ctx : EvaluationContext) (policies : list Policy)
    (risk : RiskAssessment) (deps : ConditionDeps) (m : MatchedPolicy) :
  In m (contributions evaluators ctx policies risk deps) <->
  exists p, In p policies /\ matchesScope p ctx = true
            /\ evaluatePolicyWithDeps evaluators p ctx risk deps = Some m.
Proof.
  unfold contributions. rewrite <- list_elem_of_In, list_elem_of_omap.
  split.
  - intros (p & Hp & E). exists p. apply list_elem_of_In, applicable_In in Hp.
    tauto.
  - intros (p & Hp & Hs & E). exists p. split; [| exact E].
    apply list_elem_of_In, applicable_In. tauto.
Qed.

(** *** Out-of-scope policies *)

Lemma out_of_scope_matchesScope (p : Policy) (ctx : EvaluationContext) :
  out_of_scope p ctx -> matchesScope p ctx = false.
Proof.
  unfold out_of_scope, matchesScope.
  intros [(l & -> & Hin) | (l & -> & Hne & Hch)].
  - apply includes_In in Hin. now rewrite Hin.
  - destruct (match excludeAgents (scope p) with
              | Some excluded => includes excluded (agentId ctx)
              | None => false
              end); [reflexivity |].
    destruct l as [|c cs]; [contradiction |].
    destruct (channel ctx) as [ch|]; [| reflexivity].
    destruct (includes (c :: cs) ch) eqn:E.
    + apply includes_In in E. now apply Hch in E.
    + now rewrite orb_true_r.
Qed.

Lemma filter_drop {A} (f : A -> bool) (l1 l2 : list A) (x : A) :
  f x = false -> List.filter f (l1 ++ x :: l2) = List.filter f (l1 ++ l2).
Proof.
  intros H. rewrite !List.filter_app. simpl. now rewrite H.
Qed.

(** *** Deny wins *)

(** C1 (as amended).  If at least one policy in scope contributes a deny
    effect, the verdict of [evaluateWithDeps] is deny, whatever the other
    policies contribute.  The contributions are listed in evaluation
    order (descending priority, then descending specificity), and the
    reason is the first non-empty reason among the deny contributions in
    that order, or "Denied by governance policy" when every deny
    contribution has an empty reason. *)
Theorem deny_wins (evaluators : ConditionEvaluatorMap)
    (ctx : EvaluationContext) (policies : list Policy)
    (risk : RiskAssessment) (deps : ConditionDeps) :
  (exists p m, In p policies /\ matchesScope p ctx = true
               /\ evaluatePolicyWithDeps evaluators p ctx risk deps = Some m
               /\ is_deny (effect m) = true) ->
  let res := evaluateWithDeps evaluators ctx policies risk deps in
  action res = eval_deny
  /\ matches res = contributions evaluators ctx policies risk deps
  /\ StronglySorted precedes (applicable ctx policies)
  /\ reason res = default "Denied by governance policy"%string
                    (first_deny_reason (matches res)).
Proof.
  intros (p & m & Hp & Hs & Em & Hd) res.
  assert (Ha : action res = eval_deny).
  { subst res. rewrite evaluateWithDeps_action.
    replace (existsb _ _) with true; [reflexivity |].
    symmetry. apply existsb_exists. exists m. split; [| exact Hd].
    apply contributions_In. now exists p. }
  repeat split.
  - exact Ha.
  - apply evaluateWithDeps_matches.
  - apply applicable_sorted.
  - subst res. rewrite evaluateWithDeps_matches.
    now apply evaluateWithDeps_deny_reason.
Qed.

Lemma deny_wins_witness :
  (exists p m, In p [Sample.allow_audit; Sample.deny_shell]
               /\ matchesScope p Sample.ctx = true
               /\ evaluatePolicyWithDeps Sample.no_evaluators p Sample.ctx
                    Sample.no_risk Sample.deps = Some m
               /\ is_deny (effect m) = true)
  /\ action (evaluateWithDeps Sample.no_evaluators Sample.ctx
               [Sample.allow_audit; Sample.deny_shell]
               Sample.no_risk Sample.deps) = eval_deny
  /\ reason (evaluateWithDeps Sample.no_evaluators Sample.ctx
               [Sample.allow_audit; Sample.deny_shell]
               Sample.no_risk Sample.deps) = "no shell"%string.
Proof.
  assert (H : exists p m, In p [Sample.allow_audit; Sample.deny_shell]
               /\ matchesScope p Sample.ctx = true
               /\ evaluatePolicyWithDeps Sample.no_evaluators p Sample.ctx
                    Sample.no_risk Sample.deps = Some m
               /\ is_deny (effect m) = true).
  { exists Sample.deny_shell,
      {| policyId := "deny-shell"; ruleId := "r1";
         effect := EffDeny (Some "no shell"%string) |}.
    repeat split. right; left; reflexivity. }
  split; [exact H |].
  destruct (deny_wins Sample.no_evaluators Sample.ctx
              [Sample.allow_audit; Sample.deny_shell]
              Sample.no_risk Sample.deps H) as (Ha & Hm & _ & Hr).
  split; [exact Ha |]. rewrite Hr, Hm. reflexivity.
Defined.

(** C1, as stated, fails.  Two policies deny; the one evaluated first
    (priority 10) has an empty reason.  The claim asks for the default
    string; the evaluator returns the reason of the second deny. *)
Lemma deny_reason_first_deny_counterexample :
  let res := evaluateWithDeps Sample.no_evaluators Sample.ctx
               [Sample.deny_shell; Sample.deny_silent]
               Sample.no_risk Sample.deps in
  contributions Sample.no_evaluators Sample.ctx
    [Sample.deny_shell; Sample.deny_silent] Sample.no_risk Sample.deps
  = [ {| policyId := "deny-silent"; ruleId := "r1";
         effect := EffDeny (Some ""%string) |};
      {| policyId := "deny-shell"; ruleId := "r1";
         effect := EffDeny (Some "no shell"%string) |} ]
  /\ action res = eval_deny
  /\ reason res = "no shell"%string
  /\ reason res <> "Denied by governance policy"%string.
Proof.
  repeat split; try reflexivity. discriminate.
Qed.

(** *** Escalate contributions *)

(** C2 (as amended).  When no policy in scope contributes a deny effect
    and at least one contributes an escalate effect, the verdict is
    allow; the escalate contribution only shows in the list of matches.
    For every input the action is allow or deny, never escalate. *)
Theorem escalate_without_deny_allows (evaluators : ConditionEvaluatorMap)
    (ctx : EvaluationContext) (policies : list Policy)
    (risk : RiskAssessment) (deps : ConditionDeps) :
  (forall m, In m (contributions evaluators ctx policies risk deps) ->
             is_deny (effect m) = false) ->
  (exists m, In m (contributions evaluators ctx policies risk deps)
             /\ is_escalate (effect m) = true) ->
  let res := evaluateWithDeps evaluators ctx policies risk deps in
  verdict_action (action res) = allow
  /\ (exists m, In m (matches res) /\ is_escalate (effect m) = true)
  /\ (forall ps,
        let a := verdict_action
                   (action (evaluateWithDeps evaluators ctx ps risk deps)) in
        a = allow \/ a = deny).
Proof.
  intros Hnd Hesc res. repeat split.
  - subst res. rewrite evaluateWithDeps_action.
    destruct (existsb _ _) eqn:E; [| reflexivity].
    apply existsb_exists in E. destruct E as (m & Hin & Hd).
    rewrite (Hnd m Hin) in Hd. discriminate.
  - subst res. now rewrite evaluateWithDeps_matches.
  - intros ps a. subst a.
    destruct (action (evaluateWithDeps evaluators ctx ps risk deps)); auto.
Qed.

Lemma escalate_without_deny_allows_witness :
  (forall m, In m (contributions Sample.no_evaluators Sample.ctx
                     [Sample.escalate_exec; Sample.allow_audit]
                     Sample.no_risk Sample.deps) ->
             is_deny (effect m) = false)
  /\ verdict_action
       (action (evaluateWithDeps Sample.no_evaluators Sample.ctx
                  [Sample.escalate_exec; Sample.allow_audit]
                  Sample.no_risk Sample.deps)) = allow.
Proof.
  assert (Hnd : forall m, In m (contributions Sample.no_evaluators Sample.ctx
                     [Sample.escalate_exec; Sample.allow_audit]
                     Sample.no_risk Sample.deps) ->
             is_deny (effect m) = false).
  { intros m [<- | [<- | []]]; reflexivity. }
  split; [exact Hnd |].
  apply (escalate_without_deny_allows Sample.no_evaluators Sample.ctx
           [Sample.escalate_exec; Sample.allow_audit]
           Sample.no_risk Sample.deps Hnd).
  exists {| policyId := "escalate-exec"; ruleId := "r1";
            effect := EffEscalate human (Some 300) (Some fallback_deny) |}.
  split; [right; left; reflexivity | reflexivity].
Defined.

(** C2, as stated, fails.  The only contribution is an escalate effect,
    and the verdict is allow. *)
Lemma escalate_verdict_counterexample :
  let res := evaluateWithDeps Sample.no_evaluators Sample.ctx
               [Sample.escalate_exec] Sample.no_risk Sample.deps in
  contributions Sample.no_evaluators Sample.ctx
    [Sample.escalate_exec] Sample.no_risk Sample.deps
  = [ {| policyId := "escalate-exec"; ruleId := "r1";
         effect := EffEscalate human (Some 300) (Some fallback_deny) |} ]
  /\ verdict_action (action res) = allow
  /\ verdict_action (action res) <> escalate.
Proof.
  repeat split; try reflexivity. discriminate.
Qed.

(** *** Scope filter *)

(** C3 (as amended).  A policy whose [excludeAgents] list contains the
    agent id of the context, or whose non-empty channel list does not
    contain the channel of the context, is not among the policies
    evaluated, and the result is the one obtained without it.  (The
    [enabled] flag is not read by the evaluator.) *)
Theorem out_of_scope_policy_is_ignored (evaluators : ConditionEvaluatorMap)
    (ctx : EvaluationContext) (risk : RiskAssessment) (deps : ConditionDeps)
    (earlier later : list Policy) (p : Policy) :
  out_of_scope p ctx ->
  ~ In p (applicable ctx (earlier ++ p :: later))
  /\ evaluateWithDeps evaluators ctx (earlier ++ p :: later) risk deps
     = evaluateWithDeps evaluators ctx (earlier ++ later) risk deps.
Proof.
  intros Hout. apply out_of_scope_matchesScope in Hout. split.
  - rewrite applicable_In. intros [_ H]. congruence.
  - unfold evaluateWithDeps.
    now rewrite (filter_drop (fun q => matchesScope q ctx) earlier later p Hout).
Qed.

Lemma out_of_scope_policy_is_ignored_witness :
  out_of_scope Sample.excluded_deny Sample.ctx
  /\ evaluateWithDeps Sample.no_evaluators Sample.ctx
       ([Sample.allow_audit] ++ Sample.excluded_deny :: [])
       Sample.no_risk Sample.deps
     = evaluateWithDeps Sample.no_evaluators Sample.ctx
         ([Sample.allow_audit] ++ []) Sample.no_risk Sample.deps.
Proof.
  assert (H : out_of_scope Sample.excluded_deny Sample.ctx).
  { left. exists ["main"%string]. split; [reflexivity | left; reflexivity]. }
  split; [exact H |].
  apply (out_of_scope_policy_is_ignored Sample.no_evaluators Sample.ctx
           Sample.no_risk Sample.deps [Sample.allow_audit] [] _ H).
Defined.

(** C3, as stated, fails.  A policy with [enabled = false] handed to the
    evaluator is evaluated and decides the verdict. *)
Lemma disabled_policy_counterexample :
  let res := evaluateWithDeps Sample.no_evaluators Sample.ctx
               [Sample.disabled_deny] Sample.no_risk Sample.deps in
  enabled Sample.disabled_deny = Some false
  /\ action res = eval_deny
  /\ reason res = "switched off"%string
  /\ matches res = [ {| policyId := "disabled"; ruleId := "r1";
                        effect := EffDeny (Some "switched off"%string) |} ].
Proof.
  repeat split; reflexivity.
Qed.

(** *** Rule selection inside a policy *)

Section RuleSelection.

Variable evaluators : ConditionEvaluatorMap.

Lemma evaluateConditions_hold (r : Rule) (ctx : EvaluationContext)
    (deps : ConditionDeps) :
  evaluateConditions (rule_conditions r) ctx deps evaluators = true
  <-> conditions_hold evaluators r ctx deps.
Proof.
  unfold evaluateConditions, conditions_hold.
  rewrite forallb_forall, List.Forall_forall. reflexivity.
Qed.

(** The two gate tests of the loop pass exactly when the gates permit
    the tier. *)
Lemma gates_pass (r : Rule) (t : TrustTier) :
  (match minTrust r with
   | Some min => negb (isTierAtLeast t min)
   | None => false
   end = false
   /\ match maxTrust r with
      | Some max => negb (isTierAtMost t max)
      | None => false
      end = false)
  <-> gates_permit r t.
Proof.
  unfold gates_permit, isTierAtLeast, isTierAtMost.
  destruct (minTrust r) as [mn|], (maxTrust r) as [mx|];
    rewrite ?negb_false_iff, ?Z.leb_le; split.
  all: intros [H1 H2]; split;
    first [ reflexivity
          | now apply H1
          | now apply H2
          | intros m [= <-]; assumption
          | intros m; discriminate ].
Qed.

Lemma rules_loop_satisfied (policy : Policy) (ctx : EvaluationContext)
    (deps : ConditionDeps) (r : Rule) (rest : list Rule) :
  rule_satisfied evaluators r ctx deps ->
  rules_loop evaluators policy (r :: rest) ctx deps
  = Some {| policyId := policy_id policy;
            ruleId := rule_id r;
            effect := rule_effect r |}.
Proof.
  intros [Hg Hc]. apply gates_pass in Hg. destruct Hg as [Gmin Gmax].
  apply evaluateConditions_hold in Hc.
  cbn [rules_loop]. now rewrite Gmin, Gmax, Hc.
Qed.

Lemma rules_loop_unsatisfied (policy : Policy) (ctx : EvaluationContext)
    (deps : ConditionDeps) (r : Rule) (rest : list Rule) :
  ~ rule_satisfied evaluators r ctx deps ->
  rules_loop evaluators policy (r :: rest) ctx deps
  = rules_loop evaluators policy rest ctx deps.
Proof.
  intros Hn. cbn [rules_loop].
  destruct (match minTrust r with
            | Some min => negb (isTierAtLeast (tier (trust ctx)) min)
            | None => false
            end) eqn:Gmin; [reflexivity |].
  destruct (match maxTrust r with
            | Some max => negb (isTierAtMost (tier (trust ctx)) max)
            | None => false
            end) eqn:Gmax; [reflexivity |].
  destruct (evaluateConditions (rule_conditions r) ctx deps evaluators) eqn:Ec;
    [| reflexivity].
  exfalso. apply Hn. split.
  - apply gates_pass. now split.
  - now apply evaluateConditions_hold.
Qed.

Lemma rules_loop_skip (policy : Policy) (ctx : EvaluationContext)
    (deps : ConditionDeps) (skipped rs : list Rule) :
  Forall (fun r' => ~ rule_satisfied evaluators r' ctx deps) skipped ->
  rules_loop evaluators policy (skipped ++ rs) ctx deps
  = rules_loop evaluators policy rs ctx deps.
Proof.
  induction 1 as [|r skipped Hr _ IH]; [reflexivity |].
  rewrite <- app_comm_cons, rules_loop_unsatisfied; assumption.
Qed.

(** The loop over the rules returns the first satisfied rule. *)
Lemma rules_loop_first (policy : Policy) (ctx : EvaluationContext)
    (deps : ConditionDeps) (rs : list Rule) :
  (exists skipped r rest,
      rs = skipped ++ r :: rest
      /\ Forall (fun r' => ~ rule_satisfied evaluators r' ctx deps) skipped
      /\ rule_satisfied evaluators r ctx deps
      /\ rules_loop evaluators policy rs ctx deps
         = Some {| policyId := policy_id policy;
                   ruleId := rule_id r;
                   effect := rule_effect r |})
  \/ (Forall (fun r' => ~ rule_satisfied evaluators r' ctx deps) rs
      /\ rules_loop evaluators policy rs ctx deps = None).
Proof.
  induction rs as [|r rs IH].
  - right. split; [constructor | reflexivity].
  - pose proof (gates_pass r (tier (trust ctx))) as G.
    pose proof (evaluateConditions_hold r ctx deps) as C.
    assert (Skip : ~ rule_satisfied evaluators r ctx deps ->
                   rules_loop evaluators policy (r :: rs) ctx deps
                   = rules_loop evaluators policy rs ctx deps ->
                   (exists skipped r0 rest,
                       r :: rs = skipped ++ r0 :: rest
                       /\ Forall (fun r' => ~ rule_satisfied evaluators r' ctx deps) skipped
                       /\ rule_satisfied evaluators r0 ctx deps
                       /\ rules_loop evaluators policy (r :: rs) ctx deps
                          = Some {| policyId := policy_id policy;
                                    ruleId := rule_id r0;
                                    effect := rule_effect r0 |})
                   \/ (Forall (fun r' => ~ rule_satisfied evaluators r' ctx deps) (r :: rs)
                       /\ rules_loop evaluators policy (r :: rs) ctx deps = None)).
    { intros Hn E. rewrite E.
      destruct IH as [(skipped & r0 & rest & -> & Hsk & Hsat & Hres) | (Hall & Hres)].
      - left. exists (r :: skipped), r0, rest.
        split; [reflexivity |]. split; [now constructor |].
        split; assumption.
      - right. split; [now constructor | assumption]. }
    destruct (match minTrust r with
              | Some min => negb (isTierAtLeast (tier (trust ctx)) min)
              | None => false
              end) eqn:Gmin.
    { apply Skip; [| cbn [rules_loop]; now rewrite Gmin].
      intros [Hg _]. apply G in Hg. destruct Hg; congruence. }
    destruct (match maxTrust r with
              | Some max => negb (isTierAtMost (tier (trust ctx)) max)
              | None => false
              end) eqn:Gmax.
    { apply Skip; [| cbn [rules_loop]; now rewrite Gmin, Gmax].
      intros [Hg _]. apply G in Hg. destruct Hg; congruence. }
    destruct (evaluateConditions (rule_conditions r) ctx deps evaluators) eqn:Ec.
    + left. exists [], r, rs.
      split; [reflexivity |]. split; [constructor |].
      split; [| cbn [rules_loop]; now rewrite Gmin, Gmax, Ec].
      split; [now apply G | now apply C].
    + apply Skip; [| cbn [rules_loop]; now rewrite Gmin, Gmax, Ec].
      intros [_ Hc]. apply C in Hc. congruence.
Qed.

End RuleSelection.

(** C5.  The contribution of a policy is the effect of the first rule,
    in declared order, whose trust gates permit the tier of the context
    (under the order untrusted < restricted < standard < trusted <
    privileged) and whose conditions all evaluate to true; rules before
    it that fail a gate or a condition are skipped.  When no rule is
    satisfied the policy contributes nothing.  The conditions are
    evaluated with the risk assessment of the call in the dependency
    bag. *)
Theorem policy_contributes_first_satisfied_rule
    (evaluators : ConditionEvaluatorMap) (policy : Policy)
    (ctx : EvaluationContext) (risk : RiskAssessment) (deps : ConditionDeps) :
  let policyDeps := deps_with_risk deps risk in
  (exists skipped r rest,
      rules policy = skipped ++ r :: rest
      /\ Forall (fun r' => ~ rule_satisfied evaluators r' ctx policyDeps) skipped
      /\ rule_satisfied evaluators r ctx policyDeps
      /\ evaluatePolicyWithDeps evaluators policy ctx risk deps
         = Some {| policyId := policy_id policy;
                   ruleId := rule_id r;
                   effect := rule_effect r |})
  \/ (Forall (fun r' => ~ rule_satisfied evaluators r' ctx policyDeps)
             (rules policy)
      /\ evaluatePolicyWithDeps evaluators policy ctx risk deps = None).
Proof.
  intros policyDeps. unfold evaluatePolicyWithDeps.
  apply rules_loop_first.
Qed.

(** ** The risk assessor *)

Lemma Math_round_le (x y : Q) : (x <= y)%Q -> Math_round x <= Math_round y.
Proof.
  intros H. unfold Math_round. apply Qfloor_resp_le. lra.
Qed.


Lemma Math_round_comp (x y : Q) : (x == y)%Q -> Math_round x = Math_round y.
Proof. intros H. unfold Math_round. now rewrite H. Qed.

Lemma clamp_cases (x : Q) :
  ((x < 0)%Q /\ (clamp x (0 # 1) (100 # 1) == 0)%Q)
  \/ ((0 <= x <= 100)%Q /\ (clamp x (0 # 1) (100 # 1) == x)%Q)
  \/ ((100 < x)%Q /\ (clamp x (0 # 1) (100 # 1) == 100)%Q).
Proof.
  unfold clamp.
  destruct (Q.max_spec (0 # 1) x) as [[H1 E1] | [H1 E1]];
    destruct (Q.min_spec (100 # 1) (Qmax (0 # 1) x)) as [[H2 E2] | [H2 E2]];
    rewrite E2, ?E1 in *; lra.
Qed.

Lemma clamp_range (x : Q) : (0 <= clamp x (0 # 1) (100 # 1) <= 100)%Q.
Proof.
  destruct (clamp_cases x) as [[H E] | [[H E] | [H E]]]; rewrite E; lra.
Qed.


Lemma Qle_bool_spec (x y : Q) : reflect (x <= y)%Q (Qle_bool x y).
Proof. apply iff_reflect. symmetry. apply Qle_bool_iff. Qed.




(** A tool name that is not inherited from [Object.prototype] finds a
    number. *)
Lemma lookupToolRisk_number (toolName : option string)
    (overrides : gmap string Q) :
  own_tool_name toolName ->
  exists raw, lookupToolRisk toolName overrides = RiskNumber raw.
Proof.
  intros Hown. unfold lookupToolRisk.
  destruct toolName as [name|]; cbn [truthy_opt negb]; [| now eexists].
  destruct (truthy name); cbn [negb]; [| now eexists].
  assert (Hk : includes Object_prototype_keys name = false).
  { destruct (includes Object_prototype_keys name) eqn:E; [| reflexivity].
    apply includes_In in E. now destruct (Hown name eq_refl). }
  simpl default. unfold js_get. rewrite Hk.
  destruct (overrides !! name); [now eexists |].
  destruct (DEFAULT_TOOL_RISK !! name); now eexists.
Qed.


Section AssessOfNumber.

Variable showNumber : Q -> string.
Variable showMember : string -> string.
Variable overrides : gmap string Q.

(** The assessment when the lookup finds the number [raw]: the sum of
    the five factor values written out, the score and the level. *)
Lemma assess_of_number (ctx : EvaluationContext) (tracker : FrequencyTracker)
    (raw : Q) :
  lookupToolRisk (toolName ctx) overrides = RiskNumber raw ->
  let r := assess showNumber showMember overrides ctx tracker in
  exists sum : Q,
    factor_sum r = Num sum
    /\ (sum == raw / (100 # 1) * (30 # 1)
             + (if isOffHours (hour (time ctx)) then 15 # 1 else 0 # 1)
             + ((100 # 1) - score (trust ctx)) / (100 # 1) * (20 # 1)
             + Qmin (inject_Z (count tracker 60 scope_agent (agentId ctx)
                                 (sessionKey ctx)) / (20 # 1)) 1 * (15 # 1)
             + (if isExternalTarget ctx then 20 # 1 else 0 # 1))%Q
    /\ risk_score r = Num (Math_round (clamp sum (0 # 1) (100 # 1)))
    /\ risk_level r = scoreToRiskLevel (Num (clamp sum (0 # 1) (100 # 1)))
    /\ List.map rf_value (factors r)
       = [ Num (raw / (100 # 1) * (30 # 1))%Q;
           Num (if isOffHours (hour (time ctx)) then 15 # 1 else 0 # 1);
           Num (((100 # 1) - score (trust ctx)) / (100 # 1) * (20 # 1))%Q;
           Num (Qmin (inject_Z (count tracker 60 scope_agent (agentId ctx)
                                  (sessionKey ctx)) / (20 # 1)) 1 * (15 # 1))%Q;
           Num (if isExternalTarget ctx then 20 # 1 else 0 # 1) ].
Proof.
  intros Hraw r. subst r. unfold factor_sum, assess. rewrite Hraw.
  cbn [ToNumber nan_map factors fold_left rf_value js_add risk_score
         risk_level List.map].
  eexists. split; [reflexivity |]. split; [lra |].
  split; [reflexivity |]. split; reflexivity.
Qed.


End AssessOfNumber.


Lemma own_tool_name_exec : own_tool_name (Some "exec"%string).
Proof.
  intros name [= <-] X. cbn in X.
  repeat (destruct X as [X | X]; [discriminate X |]). exact X.
Qed.



(** The tool name ["constructor"] finds [Object.prototype.constructor]:
    the score is [NaN] and the level critical, whatever the rest of the
    context says. *)
Example inherited_tool_name_is_not_a_number :
  let r := assess Sample.show Sample.show_inherited ∅
             Sample.ctx_constructor Sample.none_on_record in
  lookupToolRisk (toolName Sample.ctx_constructor) ∅ = InheritedMember "constructor"
  /\ factor_sum r = NaN
  /\ risk_score r = NaN
  /\ risk_level r = critical.
Proof. repeat split. Qed.

(** *** The frequency factor *)

(** The scan over the ring counts the recorded entries that pass both
    tests. *)
Lemma tracker_count_tally (now : Z) (t : FrequencyTrackerImpl)
    (windowSeconds : Z) (sc : FrequencyScope) (agent session : string) :
  tracker_count now t windowSeconds sc agent session
  = tally (fun entry => within_window now windowSeconds entry
                        && scope_matches sc agent session entry) t.
Proof.
  unfold tracker_count, tally, entries.
  set (keep := fun entry => within_window now windowSeconds entry
                            && scope_matches sc agent session entry).
  assert (G : forall slots acc,
             fold_left
               (fun tally slot =>
                  match slot with
                  | Some entry => if keep entry then tally + 1 else tally
                  | None => tally
                  end) slots acc
             = acc + Z.of_nat (length (List.filter keep (omap (fun slot => slot) slots)))).
  { induction slots as [|slot slots IH]; intros acc; cbn [fold_left omap list_omap].
    - simpl. lia.
    - rewrite IH. destruct slot as [entry|]; [| reflexivity].
      cbn [List.filter]. destruct (keep entry); cbn [length]; lia. }
  apply G.
Qed.

(** C7 (as amended).  With the ring-buffer tracker read at time [now],
    the frequency factor of the assessment has weight 15 and value
    [min(c / 20, 1) * 15], where [c] is the number of recorded actions of
    the last 60 seconds whose agent id is that of the context, in
    whatever session they were recorded. *)
Theorem frequency_factor_counts_agent_actions (showNumber : Q -> string)
    (showMember : string -> string)
    (overrides : gmap string Q) (ctx : EvaluationContext)
    (now : Z) (t : FrequencyTrackerImpl) :
  let r := assess showNumber showMember overrides ctx (tracker_at now t) in
  let c := tally (recent_for_agent now ctx) t in
  exists f, factor_named "frequency" r = Some f
            /\ rf_weight f = 15 # 1
            /\ rf_value f = Num (Qmin (inject_Z c / (20 # 1)) 1 * (15 # 1))%Q.
Proof.
  intros r c. eexists. split; [reflexivity |]. split; [reflexivity |].
  cbn [rf_value tracker_at count]. subst c.
  now rewrite tracker_count_tally.
Qed.

(** C7, as stated, fails.  The only action on record belongs to the
    agent of the context but to another session: no recorded action
    matches both the agent id and the session key, yet the frequency
    factor is 0.75, not 0. *)
Lemma frequency_factor_session_counterexample :
  let r := assess Sample.show Sample.show_inherited ∅ Sample.ctx
             (tracker_at 2000 Sample.other_session) in
  let c := tally (recent_for_agent_and_session 2000 Sample.ctx) Sample.other_session in
  c = 0
  /\ exists f v, factor_named "frequency" r = Some f
                 /\ rf_value f = Num v
                 /\ (v == 3 # 4)%Q
                 /\ ~ (v == Qmin (inject_Z c / (20 # 1)) 1 * (15 # 1))%Q.
Proof.
  split; [reflexivity |].
  eexists. eexists. split; [reflexivity |]. split; [reflexivity |].
  split; [reflexivity |].
  vm_compute. discriminate.
Qed.

(** ** The condition kernel *)

Lemma forallb_false {A} (f : A -> bool) (l : list A) (x : A) :
  In x l -> f x = false -> forallb f l = false.
Proof.
  intros Hin Hf. destruct (forallb f l) eqn:E; [| reflexivity].
  rewrite forallb_forall in E. rewrite (E x Hin) in Hf. discriminate.
Qed.

Lemma js_in_empty {A} (k : string) :
  ~ In k Object_prototype_keys -> js_in k (∅ : gmap string A) = false.
Proof.
  intros Hk. unfold js_in, js_get. rewrite lookup_empty.
  destruct (includes Object_prototype_keys k) eqn:E; [| reflexivity].
  now apply includes_In in E.
Qed.

Section KernelProperties.

Variable new_RegExp : string -> option RegExp.
Variable globToRegex : string -> RegExp.
Variable evaluateToolCondition : ConditionEvaluatorFn.
Variable evaluateAgentCondition : ConditionEvaluatorFn.
Variable evaluateRiskCondition : ConditionEvaluatorFn.
Variable evaluateFrequencyCondition : ConditionEvaluatorFn.
Variable evaluateCompositeCondition : ConditionEvaluatorFn.
Variable evaluateNegationCondition : ConditionEvaluatorFn.

(** C8 (as amended).  A context condition evaluates to false when it
    sets [conversationContains] and the context has no conversation
    history, sets [messageContains] and the context has no message
    content, sets [channel] and the context has no channel, sets
    [sessionKey] and the context has no session key, or lists under
    [hasMetadata] a key that no object has while the context has no
    metadata; a time condition evaluates to false when it names a
    window for which the lookup in the dependency bag yields nothing.
    The evaluators are total functions: no case raises an error. *)
Theorem missing_field_is_false (c : Condition) (ctx : EvaluationContext)
    (deps : ConditionDeps) :
  MissingField c ctx deps ->
  createConditionEvaluators new_RegExp globToRegex
    evaluateToolCondition evaluateAgentCondition evaluateRiskCondition
    evaluateFrequencyCondition evaluateCompositeCondition
    evaluateNegationCondition (condition_type c) c ctx deps = false.
Proof.
  intros H.
  destruct H as [c ctx deps Hset Hctx | c ctx deps Hset Hctx
                | c ctx deps keys k Hset Hctx Hin Hk | c ctx deps Hset Hctx
                | c ctx deps Hset Hctx | c ctx deps name Hset Hne Hwin];
    cbn [condition_type createConditionEvaluators].
  - unfold evaluateContextCondition. cbn [as_ContextCondition].
    destruct (conversationContains c) as [patterns|]; [| contradiction].
    now rewrite Hctx.
  - unfold evaluateContextCondition. cbn [as_ContextCondition].
    destruct (messageContains c) as [patterns|]; [| contradiction].
    rewrite Hctx. cbn [truthy String.eqb negb]. now rewrite andb_false_r.
  - unfold evaluateContextCondition. cbn [as_ContextCondition].
    rewrite Hset, Hctx. simpl default.
    rewrite (forallb_false _ _ k Hin (js_in_empty k Hk)).
    now rewrite andb_false_r.
  - unfold evaluateContextCondition. cbn [as_ContextCondition].
    destruct (cc_channel c) as [ch|]; [| contradiction].
    destruct (channel ctx) as [ctx_channel|]; simpl in Hctx.
    + subst ctx_channel. cbn [truthy String.eqb negb].
      now rewrite andb_false_r.
    + now rewrite andb_false_r.
  - unfold evaluateContextCondition. cbn [as_ContextCondition].
    destruct (cc_sessionKey c) as [pattern|]; [| contradiction].
    rewrite Hctx. cbn [truthy String.eqb negb]. now rewrite andb_false_r.
  - unfold evaluateTimeCondition. cbn [as_TimeCondition].
    rewrite Hset. simpl truthy_opt. simpl default.
    assert (T : truthy name = true).
    { unfold truthy. apply negb_true_iff. now apply String.eqb_neq. }
    rewrite T. unfold js_get. rewrite Hwin.
    destruct (includes Object_prototype_keys name) eqn:E; [| reflexivity].
    now apply includes_In in E.
Qed.

(** C10.  A context condition that sets none of its fields evaluates to
    true in every context, and a rule whose only condition is such a
    condition is the contribution of its policy whenever its trust
    gates permit and no earlier rule is satisfied. *)
Theorem unconstrained_context_condition_holds (c : ContextCondition)
    (ctx : EvaluationContext) (deps : ConditionDeps) :
  conversationContains c = None ->
  messageContains c = None ->
  hasMetadata c = None ->
  cc_channel c = None ->
  cc_sessionKey c = None ->
  let evaluators :=
    createConditionEvaluators new_RegExp globToRegex
      evaluateToolCondition evaluateAgentCondition evaluateRiskCondition
      evaluateFrequencyCondition evaluateCompositeCondition
      evaluateNegationCondition in
  evaluateContextCondition new_RegExp globToRegex (CContext c) ctx deps = true
  /\ forall (policy : Policy) (risk : RiskAssessment)
            (skipped : list Rule) (r : Rule) (rest : list Rule),
       rules policy = skipped ++ r :: rest ->
       Forall (fun r' => ~ rule_satisfied evaluators r' ctx
                             (deps_with_risk deps risk)) skipped ->
       rule_conditions r = [CContext c] ->
       gates_permit r (tier (trust ctx)) ->
       evaluatePolicyWithDeps evaluators policy ctx risk deps
       = Some {| policyId := policy_id policy;
                 ruleId := rule_id r;
                 effect := rule_effect r |}.
Proof.
  intros H1 H2 H3 H4 H5 evaluators.
  assert (T : forall d, evaluateContextCondition new_RegExp globToRegex
                          (CContext c) ctx d = true).
  { intros d. unfold evaluateContextCondition. cbn [as_ContextCondition].
    now rewrite H1, H2, H3, H4, H5. }
  split; [apply T |].
  intros policy risk skipped r rest Hrules Hskip Hcond Hgates.
  unfold evaluatePolicyWithDeps. rewrite Hrules.
  rewrite rules_loop_skip by assumption.
  apply rules_loop_satisfied. split; [assumption |].
  unfold conditions_hold. rewrite Hcond.
  constructor; [| constructor]. apply T.
Qed.

End KernelProperties.

Lemma missing_field_is_false_witness :
  MissingField Sample.on_channel Sample.ctx Sample.deps
  /\ MissingField (Sample.in_window "night") Sample.ctx Sample.deps
  /\ Sample.evaluators ty_context Sample.on_channel Sample.ctx Sample.deps = false
  /\ Sample.evaluators ty_time (Sample.in_window "night") Sample.ctx Sample.deps
     = false.
Proof.
  assert (Hc : MissingField Sample.on_channel Sample.ctx Sample.deps).
  { apply missing_channel; [discriminate | reflexivity]. }
  assert (Hw : MissingField (Sample.in_window "night") Sample.ctx Sample.deps).
  { apply missing_window with (name := "night"%string);
      [reflexivity | discriminate | reflexivity |].
    intros H. repeat (destruct H as [H | H]; [discriminate H |]). exact H. }
  split; [exact Hc |]. split; [exact Hw |]. split.
  - exact (missing_field_is_false Sample.new_RegExp Sample.globToRegex
             Sample.never Sample.never Sample.never Sample.never
             Sample.never Sample.never _ _ _ Hc).
  - exact (missing_field_is_false Sample.new_RegExp Sample.globToRegex
             Sample.never Sample.never Sample.never Sample.never
             Sample.never Sample.never _ _ _ Hw).
Defined.

(** C8, as stated, fails.  The context has no metadata.  A condition
    that asks for the metadata key "constructor" evaluates to true,
    because the key is found on the prototype of the empty object that
    stands in for the missing metadata; so does a condition with an
    empty list of keys. *)
Lemma missing_metadata_counterexample :
  metadata Sample.ctx = None
  /\ evaluateContextCondition Sample.new_RegExp Sample.globToRegex
       (Sample.on_metadata (One "constructor"%string)) Sample.ctx Sample.deps
     = true
  /\ evaluateContextCondition Sample.new_RegExp Sample.globToRegex
       (Sample.on_metadata (Many [])) Sample.ctx Sample.deps
     = true.
Proof.
  repeat split.
Qed.

Lemma unconstrained_context_condition_holds_witness :
  gates_permit Sample.open_rule (tier (trust Sample.ctx))
  /\ evaluateContextCondition Sample.new_RegExp Sample.globToRegex
       (CContext unconstrained) Sample.ctx Sample.deps = true
  /\ evaluatePolicyWithDeps Sample.evaluators Sample.open_policy Sample.ctx
       Sample.no_risk Sample.deps
     = Some {| policyId := "open"; ruleId := "open"; effect := EffAudit None |}.
Proof.
  assert (G : gates_permit Sample.open_rule (tier (trust Sample.ctx))).
  { split; intros m [= <-]. simpl. lia. }
  destruct (unconstrained_context_condition_holds
              Sample.new_RegExp Sample.globToRegex
              Sample.never Sample.never Sample.never Sample.never
              Sample.never Sample.never
              unconstrained Sample.ctx Sample.deps
              eq_refl eq_refl eq_refl eq_refl eq_refl) as [T R].
  split; [exact G |]. split; [exact T |].
  apply (R Sample.open_policy Sample.no_risk [] Sample.open_rule []);
    [reflexivity | constructor | reflexivity | exact G].
Defined.

(** ** The engine *)

Section EngineProperties.

Context {W : Type}.
Variable sub : Subsystems W.
Variable config : GovernanceConfig.

(** The [try] block changes the statistics only in its last step: when
    it throws, they are untouched; when it returns, they have been
    updated once. *)
Lemma evaluate_body_stats (ctx : EvaluationContext) (startUs : Z)
    (s s' : Engine W) (r : Outcome Verdict) :
  evaluate_body sub config ctx startUs s = (r, s') ->
  policyIndex s' = policyIndex s
  /\ match r with
     | Returned v =>
         stats s' = updateStats_pure (v_action v) (evaluationUs v) (stats s)
     | Thrown _ => stats s' = stats s
     end.
Proof.
  unfold evaluate_body, updateStats, modify_stats, bind, call, read, gets, ret.
  cbn [world stats policyIndex].
  repeat step sub config; intros [= <- <-]; split; reflexivity.
Qed.

(** The [catch] block counts the error before anything else and
    touches no other statistic, however it ends. *)
Lemma evaluate_handler_stats (ctx : EvaluationContext) (startUs : Z)
    (e : Exception) (s s' : Engine W) (r : Outcome Verdict) :
  evaluate_handler sub config ctx startUs e s = (r, s') ->
  stats s' = count_error (stats s).
Proof.
  unfold evaluate_handler, modify_stats, bind, call, read, gets, ret.
  cbn [world stats policyIndex].
  repeat step sub config; intros [= <- <-]; reflexivity.
Qed.

Lemma read_nowUs_stats (s : Engine W) :
  exists startUs s1,
    read (nowUs sub) s = (Returned startUs, s1)
    /\ stats s1 = stats s /\ policyIndex s1 = policyIndex s.
Proof.
  unfold read. destruct (nowUs sub (world s)) as [t w].
  now exists t, {| stats := stats s; policyIndex := policyIndex s; world := w |}.
Qed.

Lemma evaluate_unfold (ctx : EvaluationContext) (s s1 : Engine W) (startUs : Z) :
  read (nowUs sub) s = (Returned startUs, s1) ->
  evaluate sub config ctx s
  = match evaluate_body sub config ctx startUs s1 with
    | (Returned v, s2) => (Returned v, s2)
    | (Thrown e, s2) => evaluate_handler sub config ctx startUs e s2
    end.
Proof.
  intros H. unfold evaluate, bind, try_catch. now rewrite H.
Qed.

(** One call of [evaluate] either counts one error or updates the
    statistics once. *)
Lemma evaluate_stats (ctx : EvaluationContext) (s : Engine W) :
  stats (snd (evaluate sub config ctx s)) = count_error (stats s)
  \/ exists a us,
       stats (snd (evaluate sub config ctx s))
       = updateStats_pure a us (stats s).
Proof.
  destruct (read_nowUs_stats s) as (startUs & s1 & Hread & Hst & _).
  rewrite (evaluate_unfold ctx s s1 startUs Hread).
  destruct (evaluate_body sub config ctx startUs s1) as [[v | e] s2] eqn:Hb;
    apply evaluate_body_stats in Hb; destruct Hb as [_ Hb].
  - right. exists (v_action v), (evaluationUs v). cbn [snd]. now rewrite Hb, Hst.
  - left.
    destruct (evaluate_handler sub config ctx startUs e s2) as [r s3] eqn:Hh.
    apply evaluate_handler_stats in Hh. cbn [snd]. now rewrite Hh, Hb, Hst.
Qed.

Lemma updateStats_pure_balance (a : VerdictAction) (us : Z) (st : EvaluationStats) :
  totalEvaluations st = allowCount st + denyCount st ->
  totalEvaluations (updateStats_pure a us st)
  = allowCount (updateStats_pure a us st) + denyCount (updateStats_pure a us st).
Proof.
  intros H. destruct a; cbn; lia.
Qed.

Lemma evaluate_all_balance (ctxs : list EvaluationContext) (s : Engine W) :
  totalEvaluations (stats s) = allowCount (stats s) + denyCount (stats s) ->
  let s' := evaluate_all sub config ctxs s in
  totalEvaluations (stats s') = allowCount (stats s') + denyCount (stats s').
Proof.
  revert s. induction ctxs as [|ctx ctxs IH]; intros s H; [exact H |].
  cbn [evaluate_all fold_left]. apply IH.
  destruct (evaluate_stats ctx s) as [-> | (a & us & ->)].
  - exact H.
  - now apply updateStats_pure_balance.
Qed.


(** C4 (as amended).  When a step of the [try] block throws, the error
    counter is incremented, whatever happens next.  If the calls made
    by the [catch] block itself complete (the error log and, when
    auditing is enabled, the audit record), [evaluate] returns the
    fallback verdict, whose action is allow when [failMode] is open and
    deny when it is closed, and, when auditing is enabled, the audit
    trail has received a record with verdict [error_fallback]. *)
Theorem evaluate_falls_back_on_throw (ctx : EvaluationContext) (s s1 s2 : Engine W)
    (startUs endUs : Z) (e : Exception) (w3 w4 : W) :
  read (nowUs sub) s = (Returned startUs, s1) ->
  evaluate_body sub config ctx startUs s1 = (Thrown e, s2) ->
  nowUs sub (world s2) = (endUs, w3) ->
  logger_error sub ("[governance] Evaluation error: " +:+ exn_text e) w3
  = (Returned tt, w4) ->
  let elapsedUs := endUs - startUs in
  let verdict := fallback_verdict config ctx elapsedUs in
  let after (w : W) :=
    {| stats := count_error (stats s);
       policyIndex := policyIndex s;
       world := w |} in
  v_action verdict = match cfg_failMode config with
                     | fail_open => allow
                     | fail_closed => deny
                     end
  /\ errorCount (stats (snd (evaluate sub config ctx s)))
     = errorCount (stats s) + 1
  /\ (cfg_audit_enabled config = false ->
      evaluate sub config ctx s = (Returned verdict, after w4))
  /\ (cfg_audit_enabled config = true ->
      forall w5,
        audit_record sub av_error_fallback (fallback_audit_context ctx)
          (trust ctx) {| rs_level := critical; rs_score := Num 100 |} []
          elapsedUs w4
        = (Returned tt, w5) ->
        evaluate sub config ctx s = (Returned verdict, after w5)).
Proof.
  intros Hread Hbody Hnow Hlog elapsedUs verdict after.
  assert (Hs1 : stats s1 = stats s /\ policyIndex s1 = policyIndex s).
  { unfold read in Hread. destruct (nowUs sub (world s)).
    injection Hread as _ <-. now split. }
  destruct Hs1 as [Hst1 Hix1].
  destruct (evaluate_body_stats ctx startUs s1 s2 _ Hbody) as [Hix2 Hst2].
  rewrite Hst1 in Hst2. rewrite Hix1 in Hix2.
  pose proof (evaluate_unfold ctx s s1 startUs Hread) as Hev.
  rewrite Hbody in Hev.
  split; [| split; [| split]].
  - unfold verdict, fallback_verdict, fallback_action. cbn [v_action].
    now destruct (cfg_failMode config).
  - rewrite Hev.
    destruct (evaluate_handler sub config ctx startUs e s2) as [r s3] eqn:Hh.
    apply evaluate_handler_stats in Hh. cbn [snd].
    rewrite Hh, Hst2. reflexivity.
  - intros Hoff. rewrite Hev.
    unfold evaluate_handler, modify_stats, bind, call, read, gets, ret.
    cbn [world stats policyIndex].
    rewrite Hnow. cbn [world stats policyIndex]. rewrite Hlog, Hoff.
    cbn [world stats policyIndex].
    unfold after. now rewrite Hst2, Hix2.
  - intros Hon w5 Haudit. rewrite Hev.
    unfold evaluate_handler, modify_stats, bind, call, read, gets, ret.
    cbn [world stats policyIndex].
    rewrite Hnow. cbn [world stats policyIndex]. rewrite Hlog, Hon.
    cbn [world stats policyIndex]. fold elapsedUs. rewrite Haudit.
    unfold after. now rewrite Hst2, Hix2.
Qed.

(** C9.  From the initial statistics, after any sequence of [evaluate]
    calls, [totalEvaluations = allowCount + denyCount].  A call whose
    [try] block throws, and so ends in the [catch] block, increments
    [errorCount] and leaves [totalEvaluations], [allowCount],
    [denyCount] and [avgEvaluationUs] as they were. *)
Theorem statistics_balance :
  (forall (ctxs : list EvaluationContext) (index : PolicyIndex) (w : W),
      let s' := evaluate_all sub config ctxs
                  {| stats := initial_stats; policyIndex := index; world := w |} in
      totalEvaluations (stats s') = allowCount (stats s') + denyCount (stats s'))
  /\ (forall (ctx : EvaluationContext) (s s1 s2 : Engine W) (startUs : Z)
             (e : Exception),
         read (nowUs sub) s = (Returned startUs, s1) ->
         evaluate_body sub config ctx startUs s1 = (Thrown e, s2) ->
         let st' := stats (snd (evaluate sub config ctx s)) in
         errorCount st' = errorCount (stats s) + 1
         /\ totalEvaluations st' = totalEvaluations (stats s)
         /\ allowCount st' = allowCount (stats s)
         /\ denyCount st' = denyCount (stats s)
         /\ avgEvaluationUs st' = avgEvaluationUs (stats s)).
Proof.
  split.
  - intros ctxs index w. now apply evaluate_all_balance.
  - intros ctx s s1 s2 startUs e Hread Hbody st'.
    assert (Hst1 : stats s1 = stats s).
    { unfold read in Hread. destruct (nowUs sub (world s)).
      now injection Hread as _ <-. }
    destruct (evaluate_body_stats ctx startUs s1 s2 _ Hbody) as [_ Hst2].
    assert (E : st' = count_error (stats s)).
    { unfold st'. rewrite (evaluate_unfold ctx s s1 startUs Hread), Hbody.
      destruct (evaluate_handler sub config ctx startUs e s2) as [r s3] eqn:Hh.
      apply evaluate_handler_stats in Hh. cbn [snd]. now rewrite Hh, Hst2, Hst1. }
    rewrite E. repeat split; reflexivity.
Qed.

End EngineProperties.

Lemma evaluate_falls_back_on_throw_witness :
  evaluate_body Sample.broken_resolver (Sample.config fail_closed true)
    Sample.ctx 0 Sample.fresh
  = (Thrown {| exn_text := "no index" |}, Sample.fresh)
  /\ evaluate Sample.broken_resolver (Sample.config fail_closed true)
       Sample.ctx Sample.fresh
     = (Returned (fallback_verdict (Sample.config fail_closed true) Sample.ctx 0),
        {| stats := count_error initial_stats;
           policyIndex := Sample.no_index;
           world := {| Sample.audited := [av_error_fallback];
                       Sample.logged :=
                         ["[governance] Evaluation error: no index"%string] |} |}).
Proof.
  split; [reflexivity |].
  refine (proj2 (proj2 (proj2 (evaluate_falls_back_on_throw Sample.broken_resolver
            (Sample.config fail_closed true) Sample.ctx
            Sample.fresh Sample.fresh Sample.fresh 0 0
            {| exn_text := "no index" |} Sample.quiet
            {| Sample.audited := [];
               Sample.logged :=
                 ["[governance] Evaluation error: no index"%string] |}
            eq_refl eq_refl eq_refl eq_refl))) eq_refl _ eq_refl).
Defined.

(** C4, as stated, fails.  Auditing is enabled and the audit trail throws
    on every record.  The record of the verdict throws inside the [try]
    block; the [catch] block counts the error, logs it and then calls the
    audit trail again, which throws again: the exception reaches the
    caller and no fallback verdict is returned. *)
Lemma fallback_audit_throws_counterexample :
  let outcome := evaluate Sample.broken_audit (Sample.config fail_open true)
                   Sample.ctx Sample.fresh in
  fst outcome = Thrown {| exn_text := "audit buffer unavailable" |}
  /\ errorCount (stats (snd outcome)) = 1
  /\ Sample.audited (world (snd outcome)) = [].
Proof.
  repeat split.
Qed.

Lemma statistics_balance_witness :
  evaluate_body Sample.broken_resolver (Sample.config fail_open false)
    Sample.ctx 0 Sample.fresh
  = (Thrown {| exn_text := "no index" |}, Sample.fresh)
  /\ (let s' := evaluate_all Sample.working (Sample.config fail_open true)
                  [Sample.ctx; Sample.ctx_near_threshold] Sample.fresh in
      totalEvaluations (stats s') = allowCount (stats s') + denyCount (stats s'))
  /\ (let st' := stats (snd (evaluate Sample.broken_resolver
                               (Sample.config fail_open false)
                               Sample.ctx Sample.fresh)) in
      errorCount st' = 1 /\ totalEvaluations st' = 0).
Proof.
  split; [reflexivity |].
  destruct (statistics_balance Sample.broken_resolver
              (Sample.config fail_open false)) as [_ Herr].
  destruct (statistics_balance Sample.working
              (Sample.config fail_open true)) as [Hbal _].
  split.
  - apply (Hbal [Sample.ctx; Sample.ctx_near_threshold] Sample.no_index Sample.quiet).
  - destruct (Herr Sample.ctx Sample.fresh Sample.fresh Sample.fresh 0
                {| exn_text := "no index" |} eq_refl eq_refl)
      as (He & Ht & _).
    split; [exact He | exact Ht].
Defined.

(** ** Checks on sample inputs *)

Example parseTimeToMinutes_bounds :
  parseTimeToMinutes (Some "00:00"%string) = 0
  /\ parseTimeToMinutes (Some "23:59"%string) = 1439
  /\ parseTimeToMinutes (Some "24:00"%string) = -1
  /\ parseTimeToMinutes None = -1.
Proof. repeat split. Qed.

Example isInTimeRange_midnight_wrap :
  isInTimeRange (23 * 60 + 30) (23 * 60) (8 * 60) = true
  /\ isInTimeRange (8 * 60) (23 * 60) (8 * 60) = false
  /\ isInTimeRange 600 600 600 = true
  /\ isInTimeRange 601 600 600 = false.
Proof. repeat split. Qed.

(** A rule behind a trust gate that the agent does not pass is skipped,
    and the next rule is the contribution. *)
Example gated_rule_is_skipped :
  evaluatePolicyWithDeps Sample.no_evaluators Sample.gated Sample.ctx
    Sample.no_risk Sample.deps
  = Some {| policyId := "gated"; ruleId := "everyone"; effect := EffAllow |}.
Proof. reflexivity. Qed.

(** An audit contribution next to a deny: the verdict is deny and both
    contributions are listed, the one of higher priority first. *)
Example audit_beside_deny :
  evaluateWithDeps Sample.no_evaluators Sample.ctx
    [Sample.deny_shell; Sample.allow_audit] Sample.no_risk Sample.deps
  = {| action := eval_deny; reason := "no shell";
       matches :=
         [ {| policyId := "audit-exec"; ruleId := "r1"; effect := EffAudit None |};
           {| policyId := "deny-shell"; ruleId := "r1";
              effect := EffDeny (Some "no shell"%string) |} ] |}.
Proof. reflexivity. Qed.

(** A full round through the engine: the verdict is recorded in the
    audit trail and counted. *)
Example evaluate_counts_and_audits :
  let outcome := evaluate Sample.working (Sample.config fail_closed true)
                   Sample.ctx Sample.fresh in
  (exists v, fst outcome = Returned v /\ v_action v = deny
             /\ v_reason v = "no shell"%string)
  /\ Sample.audited (world (snd outcome)) = [av_deny]
  /\ totalEvaluations (stats (snd outcome)) = 1
  /\ denyCount (stats (snd outcome)) = 1.
Proof.
  split; [eexists; split; [reflexivity | split; reflexivity] | repeat split].
Qed.

(** The ring overwrites its oldest slot once it is full. *)
Example tracker_record_wraps :
  head (tracker_record
          {| fe_timestamp := 5; fe_agentId := "a"; fe_sessionKey := "s";
             fe_toolName := None |}
          {| buffer := [None; None]; head := 1%nat |}) = 0%nat.
Proof. reflexivity. Qed.

(** * Further properties *)

(** ** The policy evaluator: both entry points, order, matches *)

(** The entry point without a dependency bag is [evaluateWithDeps] on
    the bag that [evaluatePolicy] builds: empty regex cache, no time
    windows, a tracker that counts nothing.  The risk held by the bag is
    irrelevant, the risk argument replaces it. *)
Theorem evaluate_agrees_with_evaluateWithDeps
    (evaluators : ConditionEvaluatorMap) (ctx : EvaluationContext)
    (policies : list Policy) (risk bag_risk : RiskAssessment) :
  PolicyEvaluator.evaluate evaluators ctx policies risk
  = evaluateWithDeps evaluators ctx policies risk
      (PolicyEvaluator.local_deps bag_risk).
Proof.
  unfold PolicyEvaluator.evaluate, evaluateWithDeps.
  assert (E : forall ps st,
             fold_left (PolicyEvaluator.aggregate_step evaluators ctx risk) ps st
             = fold_left (aggregate_step evaluators ctx risk
                            (PolicyEvaluator.local_deps bag_risk)) ps st).
  { induction ps as [|p ps IH]; intros st; [reflexivity |].
    cbn [fold_left]. rewrite IH. reflexivity. }
  now rewrite E.
Qed.

Lemma omap_length_le {A B} (f : A -> option B) (l : list A) :
  (length (omap f l) <= length l)%nat.
Proof.
  induction l as [|a l IH]; cbn [omap list_omap length]; [lia |].
  destruct (f a); cbn [length]; lia.
Qed.


Section AggregationProperties.

Variable evaluators : ConditionEvaluatorMap.
Variable ctx : EvaluationContext.
Variable risk : RiskAssessment.
Variable deps : ConditionDeps.

Lemma aggregate_step_audit (st : LoopState) (p : Policy) (m : MatchedPolicy) :
  evaluatePolicyWithDeps evaluators p ctx risk deps = Some m ->
  hasAudit (aggregate_step evaluators ctx risk deps st p)
  = hasAudit st || is_audit (effect m).
Proof.
  intros E. unfold aggregate_step. rewrite E.
  destruct (effect m); simpl; now rewrite ?orb_false_r, ?orb_true_r.
Qed.

Lemma aggregate_loop_audit (ps : list Policy) (st : LoopState) :
  hasAudit (fold_left (aggregate_step evaluators ctx risk deps) ps st)
  = hasAudit st
    || existsb (fun m => is_audit (effect m))
         (omap (fun p => evaluatePolicyWithDeps evaluators p ctx risk deps) ps).
Proof.
  revert st. induction ps as [|p ps IH]; intros st; cbn [fold_left omap list_omap].
  - cbn. now rewrite orb_false_r.
  - destruct (evaluatePolicyWithDeps evaluators p ctx risk deps) as [m|] eqn:Em.
    + rewrite IH, (aggregate_step_audit st p m Em). cbn [existsb].
      now rewrite orb_assoc.
    + rewrite (aggregate_step_none evaluators ctx risk deps st p Em). apply IH.
Qed.

(** Without a deny contribution the verdict is allow, and its reason
    tells what was matched: "Allowed with audit logging" when some
    contribution is an audit effect, otherwise "Allowed by governance
    policy" when there is a contribution at all, otherwise "No matching
    policies". *)
Theorem allow_reason (policies : list Policy) :
  (forall m, In m (contributions evaluators ctx policies risk deps) ->
             is_deny (effect m) = false) ->
  let res := evaluateWithDeps evaluators ctx policies risk deps in
  let ms := contributions evaluators ctx policies risk deps in
  action res = eval_allow
  /\ reason res =
       (if existsb (fun m => is_audit (effect m)) ms
        then "Allowed with audit logging"
        else match ms with
             | [] => "No matching policies"
             | _ :: _ => "Allowed by governance policy"
             end)%string.
Proof.
  intros Hnd res ms.
  assert (Hno : existsb (fun m => is_deny (effect m)) ms = false).
  { destruct (existsb _ ms) eqn:E; [| reflexivity].
    apply existsb_exists in E. destruct E as (m & Hin & Hd).
    rewrite (Hnd m Hin) in Hd. discriminate. }
  split.
  - subst res. rewrite evaluateWithDeps_action. fold ms. now rewrite Hno.
  - subst res ms. unfold evaluateWithDeps, contributions, applicable in *.
    set (ps := Array_sort comparePolicies
                 (List.filter (fun p => matchesScope p ctx) policies)) in *.
    set (init := {| ls_matches := []; hasDeny := false;
                    denyReason := ""; hasAudit := false |}).
    destruct (aggregate_loop evaluators ctx risk deps ps init) as (Hm & Hd & _).
    pose proof (aggregate_loop_audit ps init) as Ha.
    cbn [ls_matches hasDeny hasAudit init app orb] in Hm, Hd, Ha.
    rewrite Hd, Hno, Ha. cbn [reason].
    destruct (existsb (fun m => is_audit (effect m)) _); [reflexivity |].
    cbn [reason]. rewrite Hm.
    now destruct (omap _ ps).
Qed.

(** Every listed match stems from a policy in scope and from a rule of
    that policy whose gates and conditions are satisfied; a policy adds
    at most one match. *)
Theorem matches_are_sound (policies : list Policy) :
  let res := evaluateWithDeps evaluators ctx policies risk deps in
  (forall m, In m (matches res) ->
     exists p r, In p policies /\ matchesScope p ctx = true
                 /\ In r (rules p)
                 /\ rule_satisfied evaluators r ctx (deps_with_risk deps risk)
                 /\ m = {| policyId := policy_id p;
                           ruleId := rule_id r;
                           effect := rule_effect r |})
  /\ (length (matches res) <= length policies)%nat.
Proof.
  intros res. subst res. rewrite evaluateWithDeps_matches. split.
  - intros m Hin. apply contributions_In in Hin.
    destruct Hin as (p & Hp & Hs & E). exists p.
    unfold evaluatePolicyWithDeps in E.
    destruct (rules_loop_first evaluators p ctx (deps_with_risk deps risk) (rules p))
      as [(skipped & r & rest & Hr & _ & Hsat & Hres) | (_ & Hres)];
      rewrite Hres in E; [| discriminate].
    injection E as <-. exists r.
    split; [exact Hp |]. split; [exact Hs |].
    split; [rewrite Hr; apply in_or_app; right; now left |].
    split; [exact Hsat | reflexivity].
  - unfold contributions.
    etransitivity; [apply omap_length_le |].
    rewrite (Permutation_length (applicable_Permutation ctx policies)).
    apply List.filter_length_le.
Qed.

(** The matches are the contributions of the policies in scope, taken
    by descending priority, then by descending specificity; policies of
    equal priority and specificity keep the order in which they were
    passed. *)
Theorem matches_follow_priority (policies : list Policy) :
  exists order,
    matches (evaluateWithDeps evaluators ctx policies risk deps)
    = omap (fun p => evaluatePolicyWithDeps evaluators p ctx risk deps) order
    /\ Permutation order (List.filter (fun p => matchesScope p ctx) policies)
    /\ StronglySorted precedes order
    /\ forall p, List.filter (same_rank p) order
                 = List.filter (same_rank p)
                     (List.filter (fun q => matchesScope q ctx) policies).
Proof.
  exists (applicable ctx policies). split; [apply evaluateWithDeps_matches |].
  split; [apply applicable_Permutation |].
  split; [apply applicable_sorted | apply applicable_stable].
Qed.

Lemma action_of_contributions (policies others : list Policy) :
  Permutation (contributions evaluators ctx policies risk deps)
              (contributions evaluators ctx others risk deps) ->
  action (evaluateWithDeps evaluators ctx policies risk deps)
  = action (evaluateWithDeps evaluators ctx others risk deps).
Proof.
  intros HC. rewrite !evaluateWithDeps_action.
  destruct (existsb _ (contributions evaluators ctx policies risk deps)) eqn:E1;
    destruct (existsb _ (contributions evaluators ctx others risk deps)) eqn:E2;
    try reflexivity; exfalso.
  - apply existsb_exists in E1. destruct E1 as (m & Hin & Hd).
    assert (X : existsb (fun m => is_deny (effect m))
                  (contributions evaluators ctx others risk deps) = true).
    { apply existsb_exists. exists m. split; [| exact Hd].
      eapply Permutation_in; eassumption. }
    congruence.
  - apply existsb_exists in E2. destruct E2 as (m & Hin & Hd).
    assert (X : existsb (fun m => is_deny (effect m))
                  (contributions evaluators ctx policies risk deps) = true).
    { apply existsb_exists. exists m. split; [| exact Hd].
      eapply Permutation_in; [symmetry |]; eassumption. }
    congruence.
Qed.


Lemma same_rules_and_filter_contributions (ps qs : list Policy) :
  Forall2 same_rules_and_filter ps qs ->
  omap (fun p => evaluatePolicyWithDeps evaluators p ctx risk deps)
       (List.filter (fun p => matchesScope p ctx) ps)
  = omap (fun p => evaluatePolicyWithDeps evaluators p ctx risk deps)
         (List.filter (fun p => matchesScope p ctx) qs).
Proof.
  induction 1 as [| p q ps qs (Hid & Hr & He & Hc) _ IH]; [reflexivity |].
  cbn [List.filter].
  assert (Hs : matchesScope p ctx = matchesScope q ctx).
  { unfold matchesScope. now rewrite He, Hc. }
  assert (Hv : evaluatePolicyWithDeps evaluators p ctx risk deps
               = evaluatePolicyWithDeps evaluators q ctx risk deps).
  { unfold evaluatePolicyWithDeps. rewrite Hr.
    generalize (rules q). intros rs.
    induction rs as [|r rs IHr]; cbn [rules_loop]; [reflexivity |].
    rewrite IHr, Hid. reflexivity. }
  rewrite <- Hs. destruct (matchesScope p ctx); [| exact IH].
  cbn [omap list_omap]. rewrite Hv.
  destruct (evaluatePolicyWithDeps evaluators q ctx risk deps);
    [f_equal |]; exact IH.
Qed.

(** The evaluator reads of a policy its id, its rules and the
    [excludeAgents] and [channels] of its scope, and nothing else for
    the action: changing priorities, enabled flags or the [agents] and
    [hooks] lists of the policies changes neither the action nor the
    matches, only the order of the matches. *)
Theorem action_depends_on_rules_and_filter (policies changed : list Policy) :
  Forall2 same_rules_and_filter policies changed ->
  action (evaluateWithDeps evaluators ctx policies risk deps)
  = action (evaluateWithDeps evaluators ctx changed risk deps)
  /\ Permutation (matches (evaluateWithDeps evaluators ctx policies risk deps))
                 (matches (evaluateWithDeps evaluators ctx changed risk deps)).
Proof.
  intros HF.
  assert (HC : Permutation (contributions evaluators ctx policies risk deps)
                           (contributions evaluators ctx changed risk deps)).
  { unfold contributions.
    rewrite (omap_Permutation _ _ _ (applicable_Permutation ctx policies)).
    rewrite (omap_Permutation _ _ _ (applicable_Permutation ctx changed)).
    now rewrite (same_rules_and_filter_contributions policies changed HF). }
  split; [now apply action_of_contributions |].
  now rewrite !evaluateWithDeps_matches.
Qed.

End AggregationProperties.

(** ** The context condition *)

Lemma prefix_append (p t : string) :
  String.prefix p t = true <-> exists suffix, t = (p ++ suffix)%string.
Proof.
  revert t. induction p as [|a p IH]; intros t.
  - split; [intros _; now exists t | intros _; now destruct t].
  - destruct t as [|b t]; cbn [String.prefix String.append].
    + split; [discriminate | intros (s & H); discriminate H].
    + destruct (Ascii.ascii_dec a b) as [-> | Hne].
      * rewrite IH. split; intros (s & H); exists s.
        -- now rewrite H.
        -- now injection H.
      * split; [discriminate |]. intros (s & H). injection H as H1 H2.
        now subst.
Qed.

(** [str_includes] finds exactly the substrings. *)
Lemma str_includes_substring (p t : string) :
  str_includes p t = true
  <-> exists before after, t = (before ++ p ++ after)%string.
Proof.
  induction t as [|b t IH]; cbn [str_includes].
  - destruct (String.prefix p "") eqn:E.
    + split; [intros _ | reflexivity].
      apply prefix_append in E. destruct E as (s & H). now exists ""%string, s.
    + split; [discriminate |]. intros (pre & suf & H).
      destruct pre as [|c pre]; [| discriminate H].
      cbn [String.append] in H.
      assert (X : String.prefix p "" = true) by (apply prefix_append; now exists suf).
      congruence.
  - destruct (String.prefix p (String b t)) eqn:E.
    + split; [intros _ | reflexivity].
      apply prefix_append in E. destruct E as (s & H). now exists ""%string, s.
    + rewrite IH. split.
      * intros (pre & suf & H). exists (String b pre), suf.
        cbn [String.append]. now rewrite H.
      * intros (pre & suf & H). destruct pre as [|c pre].
        -- cbn [String.append] in H.
           assert (X : String.prefix p (String b t) = true)
             by (apply prefix_append; now exists suf).
           congruence.
        -- cbn [String.append] in H. injection H as _ H. now exists pre, suf.
Qed.

Section ContextProperties.

Variable new_RegExp : string -> option RegExp.
Variable globToRegex : string -> RegExp.

(** [matchesAny] holds when some pattern matches some text: it reduces
    to one pattern against one text.  In particular it fails for an empty
    pattern list and for an empty list of texts, and it keeps holding
    when texts are added. *)
Theorem matchesAny_some_pattern_some_text (patterns : OneOrMany string)
    (texts : list string) (cache : gmap string RegExp) :
  matchesAny new_RegExp patterns texts cache = true
  <-> exists pattern text,
        In pattern (toArray patterns) /\ In text texts
        /\ matchesAny new_RegExp (One pattern) [text] cache = true.
Proof.
  unfold matchesAny. cbn [toArray existsb]. rewrite existsb_exists. split.
  - intros (p & Hp & H). exists p.
    destruct (cache !! p) as [re|]; [| destruct (new_RegExp p) as [re|]];
      apply existsb_exists in H; destruct H as (t & Ht & H);
      exists t; cbn [existsb]; now rewrite H.
  - intros (p & t & Hp & Ht & H). exists p. split; [exact Hp |].
    rewrite orb_false_r in H.
    destruct (cache !! p) as [re|]; [| destruct (new_RegExp p) as [re|]];
      cbn [existsb] in H; rewrite orb_false_r in H;
      apply existsb_exists; now exists t.
Qed.

(** A pattern that is not in the cache and that [new RegExp] rejects is
    searched as a plain substring. *)
Theorem rejected_pattern_is_a_substring_search (pattern text : string)
    (cache : gmap string RegExp) :
  cache !! pattern = None ->
  new_RegExp pattern = None ->
  matchesAny new_RegExp (One pattern) [text] cache = true
  <-> exists before after, text = (before ++ pattern ++ after)%string.
Proof.
  intros Hc Hn. unfold matchesAny. cbn [toArray existsb].
  rewrite Hc, Hn. cbn [existsb]. rewrite !orb_false_r.
  apply str_includes_substring.
Qed.

(** A cached expression is used as it is: the pattern is not compiled
    again, whatever [new RegExp] would make of it. *)
Lemma cached_pattern_is_tested (pattern text : string) (re : RegExp)
    (cache : gmap string RegExp) :
  cache !! pattern = Some re ->
  matchesAny new_RegExp (One pattern) [text] cache = test re text.
Proof.
  intros Hc. unfold matchesAny. cbn [toArray existsb].
  rewrite Hc. cbn [existsb]. now rewrite !orb_false_r.
Qed.

(** The fields of a context condition are combined under AND: a
    condition that holds still holds when some of its fields are left
    out. *)
Theorem context_condition_with_fewer_fields (less more : ContextCondition)
    (ctx : EvaluationContext) (deps : ConditionDeps) :
  fewer_fields less more ->
  evaluateContextCondition new_RegExp globToRegex (CContext more) ctx deps = true ->
  evaluateContextCondition new_RegExp globToRegex (CContext less) ctx deps = true.
Proof.
  intros (H1 & H2 & H3 & H4 & H5).
  unfold evaluateContextCondition. cbn [as_ContextCondition].
  rewrite !andb_true_iff. intros ((((E1 & E2) & E3) & E4) & E5).
  repeat split.
  - destruct H1 as [-> | ->]; [reflexivity | exact E1].
  - destruct H2 as [-> | ->]; [reflexivity | exact E2].
  - destruct H3 as [-> | ->]; [reflexivity | exact E3].
  - destruct H4 as [-> | ->]; [reflexivity | exact E4].
  - destruct H5 as [-> | ->]; [reflexivity | exact E5].
Qed.

(** A context condition that holds has found what it asks for: the
    channel of the context is one of the listed channels, every listed
    metadata key is a property of the metadata object, and the session
    key is non-empty and matches the glob. *)
Theorem context_condition_holds_only_if (c : ContextCondition)
    (ctx : EvaluationContext) (deps : ConditionDeps) :
  evaluateContextCondition new_RegExp globToRegex (CContext c) ctx deps = true ->
  (forall listed, cc_channel c = Some listed ->
     exists ch, channel ctx = Some ch /\ ch <> ""%string
                /\ In ch (toArray listed))
  /\ (forall keys k, hasMetadata c = Some keys -> In k (toArray keys) ->
        js_in k (default ∅ (metadata ctx)) = true)
  /\ (forall glob, cc_sessionKey c = Some glob ->
        sessionKey ctx <> ""%string
        /\ test (globToRegex glob) (sessionKey ctx) = true).
Proof.
  unfold evaluateContextCondition. cbn [as_ContextCondition].
  rewrite !andb_true_iff. intros ((((_ & _) & E3) & E4) & E5).
  split; [| split].
  - intros listed Hl. rewrite Hl in E4.
    destruct (channel ctx) as [ch|]; [| discriminate].
    exists ch. split; [reflexivity |].
    destruct (truthy ch) eqn:T; cbn [negb] in E4; [| discriminate].
    split; [| now apply includes_In].
    intros ->. discriminate T.
  - intros keys k Hk Hin. rewrite Hk in E3.
    rewrite forallb_forall in E3. now apply E3.
  - intros glob Hg. rewrite Hg in E5.
    destruct (truthy (sessionKey ctx)) eqn:T; cbn [negb] in E5; [| discriminate].
    split; [| exact E5]. intros H. rewrite H in T. discriminate T.
Qed.

End ContextProperties.

(** ** The time condition *)

Lemma includesZ_In (l : list Z) (n : Z) : includesZ l n = true <-> In n l.
Proof.
  unfold includesZ. rewrite existsb_exists. split.
  - intros (y & Hy & E). apply Z.eqb_eq in E. now subst.
  - intros H. exists n. split; [exact H | apply Z.eqb_refl].
Qed.

Lemma day_excluded_false (days : option (list Z)) (ctx : EvaluationContext) :
  day_excluded days ctx = false
  <-> forall d ds, days = Some (d :: ds) -> In (dayOfWeek (time ctx)) (d :: ds).
Proof.
  unfold day_excluded. destruct days as [[|d ds]|].
  - split; [intros _ d ds H; discriminate H | reflexivity].
  - rewrite negb_false_iff, includesZ_In. split.
    + intros H d' ds' [= <- <-]. exact H.
    + intros H. now apply H.
  - split; [intros _ d ds H; discriminate H | reflexivity].
Qed.

(** A condition that names a window is decided by the window alone: its
    own [after], [before] and [days] are not read. *)
Theorem named_window_ignores_inline_fields (a b : TimeCondition)
    (ctx : EvaluationContext) (deps : ConditionDeps) :
  tm_window a = tm_window b ->
  truthy_opt (tm_window a) = true ->
  evaluateTimeCondition (CTime a) ctx deps
  = evaluateTimeCondition (CTime b) ctx deps.
Proof.
  intros Hw Ht. unfold evaluateTimeCondition. cbn [as_TimeCondition].
  rewrite <- Hw, Ht. reflexivity.
Qed.

(** Without a named window, a lone [after] bound is inclusive and a lone
    [before] bound is exclusive; a bound that does not parse makes the
    condition false. *)
Theorem one_sided_time_bounds (c : TimeCondition) (ctx : EvaluationContext)
    (deps : ConditionDeps) :
  truthy_opt (tm_window c) = false ->
  tm_days c = None ->
  (forall a, tm_after c = Some a -> tm_before c = None ->
     (evaluateTimeCondition (CTime c) ctx deps = true
      <-> 0 <= parseTimeToMinutes (Some a) <= minute_of_day ctx))
  /\ (forall b, tm_after c = None -> tm_before c = Some b ->
        (evaluateTimeCondition (CTime c) ctx deps = true
         <-> 0 <= parseTimeToMinutes (Some b)
             /\ minute_of_day ctx < parseTimeToMinutes (Some b))).
Proof.
  intros Hw Hd. unfold minute_of_day. split.
  - intros a Ha Hb. unfold evaluateTimeCondition. cbn [as_TimeCondition].
    rewrite Hw, Ha, Hb, Hd. cbn [day_excluded negb]. rewrite andb_true_r.
    destruct (Z.ltb_spec (parseTimeToMinutes (Some a)) 0).
    + split; [discriminate | lia].
    + rewrite negb_true_iff, Z.ltb_ge. lia.
  - intros b Ha Hb. unfold evaluateTimeCondition. cbn [as_TimeCondition].
    rewrite Hw, Ha, Hb, Hd. cbn [day_excluded negb]. rewrite andb_true_r.
    destruct (Z.ltb_spec (parseTimeToMinutes (Some b)) 0).
    + split; [discriminate | lia].
    + rewrite negb_true_iff, Z.leb_gt. lia.
Qed.

(** With both bounds and no named window, a bound that does not parse
    makes the condition false at every time. *)
Theorem unparsable_bound_is_false (c : TimeCondition) (ctx : EvaluationContext)
    (deps : ConditionDeps) (a b : string) :
  truthy_opt (tm_window c) = false ->
  tm_after c = Some a ->
  tm_before c = Some b ->
  parseTimeToMinutes (Some a) < 0 \/ parseTimeToMinutes (Some b) < 0 ->
  evaluateTimeCondition (CTime c) ctx deps = false.
Proof.
  intros Hw Ha Hb Hp. unfold evaluateTimeCondition. cbn [as_TimeCondition].
  rewrite Hw, Ha, Hb.
  replace ((parseTimeToMinutes (Some a) <? 0) || (parseTimeToMinutes (Some b) <? 0))
    with true; [reflexivity |].
  symmetry. apply orb_true_iff. rewrite !Z.ltb_lt. exact Hp.
Qed.

(** The day-of-week filter is a necessary condition.  Without a named
    window a non-empty [days] list of the condition must contain the
    current day; with a named window it is the [days] list of the window
    that must. *)
Theorem time_condition_respects_days (c : TimeCondition)
    (ctx : EvaluationContext) (deps : ConditionDeps) :
  evaluateTimeCondition (CTime c) ctx deps = true ->
  (truthy_opt (tm_window c) = false ->
   forall d ds, tm_days c = Some (d :: ds) ->
                In (dayOfWeek (time ctx)) (d :: ds))
  /\ (forall name win d ds,
        tm_window c = Some name -> name <> ""%string ->
        timeWindows deps !! name = Some win ->
        tw_days win = Some (d :: ds) ->
        In (dayOfWeek (time ctx)) (d :: ds)).
Proof.
  unfold evaluateTimeCondition. cbn [as_TimeCondition]. intros E. split.
  - intros Hw. rewrite Hw in E. apply andb_true_iff in E. destruct E as [_ E].
    apply negb_true_iff in E. now apply day_excluded_false.
  - intros name win d ds Hn Hne Hl Hd.
    rewrite Hn in E. cbn [truthy_opt] in E.
    assert (T : truthy name = true).
    { unfold truthy. apply negb_true_iff. now apply String.eqb_neq. }
    rewrite T in E. simpl default in E. unfold js_get in E. rewrite Hl in E.
    destruct ((parseTimeToMinutes (Some (tw_start win)) <? 0)
              || (parseTimeToMinutes (Some (tw_end win)) <? 0)); [discriminate |].
    destruct (negb (isInTimeRange _ _ _)); [discriminate |].
    destruct (day_excluded (tw_days win) ctx) eqn:D; [discriminate |].
    eapply day_excluded_false; eassumption.
Qed.

(** A time condition without a window name (or with an empty one),
    without bounds and without days (or with an empty day list) holds at
    every time. *)
Lemma time_condition_without_fields (c : TimeCondition)
    (ctx : EvaluationContext) (deps : ConditionDeps) :
  truthy_opt (tm_window c) = false ->
  tm_after c = None ->
  tm_before c = None ->
  tm_days c = None \/ tm_days c = Some [] ->
  evaluateTimeCondition (CTime c) ctx deps = true.
Proof.
  intros Hw Ha Hb Hd. unfold evaluateTimeCondition. cbn [as_TimeCondition].
  rewrite Hw, Ha, Hb. now destruct Hd as [-> | ->].
Qed.

(** ** Named windows and the entry point without a dependency bag *)

Lemma undefined_window_is_false (c : TimeCondition) (name : string)
    (ctx : EvaluationContext) (deps : ConditionDeps) :
  tm_window c = Some name ->
  name <> ""%string ->
  timeWindows deps !! name = None ->
  ~ In name Object_prototype_keys ->
  evaluateTimeCondition (CTime c) ctx deps = false.
Proof.
  intros Hn Hne Hl Hk. unfold evaluateTimeCondition. cbn [as_TimeCondition].
  rewrite Hn. cbn [truthy_opt].
  assert (T : truthy name = true).
  { unfold truthy. apply negb_true_iff. now apply String.eqb_neq. }
  rewrite T. simpl default. unfold js_get. rewrite Hl.
  destruct (includes Object_prototype_keys name) eqn:E; [| reflexivity].
  now apply includes_In in E.
Qed.

Section EvaluateWithoutDeps.

Variable new_RegExp : string -> option RegExp.
Variable globToRegex : string -> RegExp.
Variable evaluateToolCondition : ConditionEvaluatorFn.
Variable evaluateAgentCondition : ConditionEvaluatorFn.
Variable evaluateRiskCondition : ConditionEvaluatorFn.
Variable evaluateFrequencyCondition : ConditionEvaluatorFn.
Variable evaluateCompositeCondition : ConditionEvaluatorFn.
Variable evaluateNegationCondition : ConditionEvaluatorFn.

(** Through [evaluate], which builds its own dependency bag without time
    windows, a rule that asks for a named window is never satisfied: a
    policy all of whose rules do so contributes nothing, at any time. *)
Theorem named_windows_need_the_dependency_bag (policy : Policy)
    (ctx : EvaluationContext) (risk : RiskAssessment) :
  (forall r, In r (rules policy) ->
     exists c name, In (CTime c) (rule_conditions r)
                    /\ tm_window c = Some name /\ name <> ""%string
                    /\ ~ In name Object_prototype_keys) ->
  PolicyEvaluator.evaluatePolicy
    (createConditionEvaluators new_RegExp globToRegex
       evaluateToolCondition evaluateAgentCondition evaluateRiskCondition
       evaluateFrequencyCondition evaluateCompositeCondition
       evaluateNegationCondition)
    policy ctx risk = None.
Proof.
  intros H. unfold PolicyEvaluator.evaluatePolicy.
  rewrite <- (app_nil_r (rules policy)).
  rewrite rules_loop_skip; [reflexivity |].
  apply List.Forall_forall. intros r Hr [_ Hc].
  destruct (H r Hr) as (c & name & Hin & Hn & Hne & Hk).
  unfold conditions_hold in Hc. rewrite List.Forall_forall in Hc.
  specialize (Hc _ Hin). cbn [condition_type createConditionEvaluators] in Hc.
  rewrite (undefined_window_is_false c name) in Hc;
    [discriminate | assumption | assumption | apply lookup_empty | assumption].
Qed.

End EvaluateWithoutDeps.

(** ** The risk assessor: ranges and monotonicity *)

Lemma DEFAULT_TOOL_RISK_range (name : string) (v : Q) :
  DEFAULT_TOOL_RISK !! name = Some v -> (5 <= v <= 95)%Q.
Proof.
  unfold DEFAULT_TOOL_RISK. intros H.
  apply elem_of_list_to_map_2 in H. apply list_elem_of_In in H.
  cbn [In] in H.
  repeat (destruct H as [H | H]; [injection H as _ <-; split; discriminate |]).
  contradiction.
Qed.

(** A number returned by the lookup is an override, a built-in risk or
    the default 30. *)
Lemma lookupToolRisk_range (overrides : gmap string Q) (toolName : option string)
    (raw : Q) :
  (forall name v, overrides !! name = Some v -> (0 <= v <= 100)%Q) ->
  lookupToolRisk toolName overrides = RiskNumber raw ->
  (0 <= raw <= 100)%Q
  /\ (overrides !! default ""%string toolName = None -> (5 <= raw <= 95)%Q).
Proof.
  intros Hr. unfold lookupToolRisk, js_get.
  destruct (negb (truthy_opt toolName)).
  { intros [= <-]. split; [| intros _]; split; discriminate. }
  destruct (overrides !! default ""%string toolName) as [v|] eqn:Ho.
  { intros [= <-]. split; [exact (Hr _ _ Ho) | discriminate]. }
  destruct (includes Object_prototype_keys (default ""%string toolName));
    [discriminate |].
  destruct (DEFAULT_TOOL_RISK !! default ""%string toolName) as [v|] eqn:Hb.
  - intros [= <-]. apply DEFAULT_TOOL_RISK_range in Hb.
    split; [lra | intros _; exact Hb].
  - intros [= <-]. split; [| intros _]; split; discriminate.
Qed.

(** The lookup of a raw tool risk, case by case. *)
Lemma tool_risk_lookup_cases (overrides : gmap string Q) :
  (forall name v, name <> ""%string -> overrides !! name = Some v ->
     lookupToolRisk (Some name) overrides = RiskNumber v)
  /\ lookupToolRisk None overrides = RiskNumber (30 # 1)
  /\ lookupToolRisk (Some ""%string) overrides = RiskNumber (30 # 1)
  /\ (forall name, overrides !! name = None ->
        DEFAULT_TOOL_RISK !! name = None ->
        ~ In name Object_prototype_keys ->
        lookupToolRisk (Some name) overrides = RiskNumber (30 # 1)).
Proof.
  split; [| split; [| split]].
  - intros name v Hne Ho. unfold lookupToolRisk, js_get. cbn [truthy_opt].
    assert (T : truthy name = true).
    { unfold truthy. apply negb_true_iff. now apply String.eqb_neq. }
    rewrite T. simpl. now rewrite Ho.
  - reflexivity.
  - reflexivity.
  - intros name Ho Hb Hk. unfold lookupToolRisk, js_get.
    destruct (negb (truthy_opt (Some name))); [reflexivity |].
    simpl default. rewrite Ho, Hb.
    destruct (includes Object_prototype_keys name) eqn:E; [| reflexivity].
    now apply includes_In in E.
Qed.

(** For a tool name that is not inherited from [Object.prototype] the
    lookup returns a number.  When every configured override lies in
    [[0,100]], so does that number: the built-in table stays within 5
    and 95, and a missing or unknown tool gets 30. *)
Theorem tool_risk_in_range (overrides : gmap string Q) (toolName : option string) :
  own_tool_name toolName ->
  (forall name v, overrides !! name = Some v -> (0 <= v <= 100)%Q) ->
  exists raw,
    lookupToolRisk toolName overrides = RiskNumber raw
    /\ (0 <= raw <= 100)%Q
    /\ (overrides !! default ""%string toolName = None ->
        (5 <= raw <= 95)%Q).
Proof.
  intros Hown Hr.
  destruct (lookupToolRisk_number toolName overrides Hown) as [raw Hraw].
  exists raw. split; [exact Hraw |].
  exact (lookupToolRisk_range overrides toolName raw Hr Hraw).
Qed.

Lemma frequency_value_monotone (c1 c2 : Z) :
  c1 <= c2 ->
  (Qmin (inject_Z c1 / (20 # 1)) 1 * (15 # 1)
   <= Qmin (inject_Z c2 / (20 # 1)) 1 * (15 # 1))%Q.
Proof.
  intros H. rewrite Zle_Qle in H.
  destruct (Q.min_spec (inject_Z c1 / (20 # 1)) 1) as [[H1 E1] | [H1 E1]];
    destruct (Q.min_spec (inject_Z c2 / (20 # 1)) 1) as [[H2 E2] | [H2 E2]];
    rewrite E1, E2; unfold Qdiv in *;
    change (/ (20 # 1))%Q with (1 # 20)%Q in *; lra.
Qed.

Lemma frequency_value_range (c : Z) :
  0 <= c ->
  (0 <= Qmin (inject_Z c / (20 # 1)) 1 * (15 # 1) <= 15)%Q.
Proof.
  intros H. rewrite Zle_Qle in H. change (inject_Z 0) with 0%Q in H.
  destruct (Q.min_spec (inject_Z c / (20 # 1)) 1) as [[H1 E1] | [H1 E1]];
    rewrite E1; unfold Qdiv in *;
    change (/ (20 # 1))%Q with (1 # 20)%Q in *; lra.
Qed.

Lemma frequency_value_saturated (c : Z) :
  20 <= c ->
  (Qmin (inject_Z c / (20 # 1)) 1 * (15 # 1) == 15)%Q.
Proof.
  intros H. rewrite Zle_Qle in H. change (inject_Z 20) with 20%Q in H.
  destruct (Q.min_spec (inject_Z c / (20 # 1)) 1) as [[H1 E1] | [H1 E1]];
    rewrite E1; unfold Qdiv in *;
    change (/ (20 # 1))%Q with (1 # 20)%Q in *; lra.
Qed.

Lemma clamp_monotone (x y : Q) :
  (x <= y)%Q -> (clamp x (0 # 1) (100 # 1) <= clamp y (0 # 1) (100 # 1))%Q.
Proof.
  intros H.
  destruct (clamp_cases x) as [[Hx Ex] | [[Hx Ex] | [Hx Ex]]];
    destruct (clamp_cases y) as [[Hy Ey] | [[Hy Ey] | [Hy Ey]]];
    rewrite Ex, Ey; lra.
Qed.

(** A higher score never gives a lower level. *)
Lemma scoreToRiskLevel_monotone (x y : Q) :
  (x <= y)%Q ->
  risk_rank (scoreToRiskLevel (Num x)) <= risk_rank (scoreToRiskLevel (Num y)).
Proof.
  intros H. unfold scoreToRiskLevel. cbn [js_le].
  destruct (Qle_bool_spec x (25 # 1)), (Qle_bool_spec x (50 # 1)),
    (Qle_bool_spec x (75 # 1)), (Qle_bool_spec y (25 # 1)),
    (Qle_bool_spec y (50 # 1)), (Qle_bool_spec y (75 # 1));
    cbn [risk_rank]; try lia; exfalso; lra.
Qed.

Lemma risk_rank_injective (a b : RiskLevel) :
  risk_rank a = risk_rank b -> a = b.
Proof. destruct a, b; cbn; intros H; try reflexivity; discriminate H. Qed.

Lemma scoreToRiskLevel_comp (x y : Q) :
  (x == y)%Q -> scoreToRiskLevel (Num x) = scoreToRiskLevel (Num y).
Proof.
  intros H. apply risk_rank_injective.
  assert (risk_rank (scoreToRiskLevel (Num x)) <= risk_rank (scoreToRiskLevel (Num y)))
    by (apply scoreToRiskLevel_monotone; lra).
  assert (risk_rank (scoreToRiskLevel (Num y)) <= risk_rank (scoreToRiskLevel (Num x)))
    by (apply scoreToRiskLevel_monotone; lra).
  lia.
Qed.

(** Score and level are monotone in the sum of the factor values. *)
Lemma score_and_level_monotone (sum1 sum2 : Q) :
  (sum1 <= sum2)%Q ->
  Math_round (clamp sum1 (0 # 1) (100 # 1))
  <= Math_round (clamp sum2 (0 # 1) (100 # 1))
  /\ risk_rank (scoreToRiskLevel (Num (clamp sum1 (0 # 1) (100 # 1))))
     <= risk_rank (scoreToRiskLevel (Num (clamp sum2 (0 # 1) (100 # 1)))).
Proof.
  intros H. apply clamp_monotone in H. split.
  - now apply Math_round_le.
  - now apply scoreToRiskLevel_monotone.
Qed.

Section AssessProperties.

Variable showNumber : Q -> string.
Variable showMember : string -> string.
Variable overrides : gmap string Q.

(** More recent actions never lower the risk: score and level are
    monotone in the count reported by the tracker.  From 20 actions on
    the count makes no difference any more.  (Here and below the tool
    name is not one inherited from [Object.prototype], for which the
    lookup returns a function and the score is [NaN].) *)
Theorem risk_grows_with_frequency (ctx : EvaluationContext)
    (fewer more : FrequencyTracker) :
  own_tool_name (toolName ctx) ->
  count fewer 60 scope_agent (agentId ctx) (sessionKey ctx)
  <= count more 60 scope_agent (agentId ctx) (sessionKey ctx) ->
  let r1 := assess showNumber showMember overrides ctx fewer in
  let r2 := assess showNumber showMember overrides ctx more in
  exists s1 s2 : Z,
    risk_score r1 = Num s1 /\ risk_score r2 = Num s2
    /\ s1 <= s2
    /\ risk_rank (risk_level r1) <= risk_rank (risk_level r2)
    /\ (20 <= count fewer 60 scope_agent (agentId ctx) (sessionKey ctx) ->
        s1 = s2 /\ risk_level r1 = risk_level r2).
Proof.
  intros Hown H r1 r2.
  destruct (lookupToolRisk_number (toolName ctx) overrides Hown) as [raw Hraw].
  destruct (assess_of_number showNumber showMember overrides ctx fewer raw Hraw)
    as (sum1 & _ & E1 & Hs1 & Hl1 & _).
  destruct (assess_of_number showNumber showMember overrides ctx more raw Hraw)
    as (sum2 & _ & E2 & Hs2 & Hl2 & _).
  fold r1 in Hs1, Hl1. fold r2 in Hs2, Hl2.
  pose proof (frequency_value_monotone _ _ H) as Hf.
  assert (Hle : (sum1 <= sum2)%Q) by (rewrite E1, E2; lra).
  destruct (score_and_level_monotone sum1 sum2 Hle) as [M1 M2].
  do 2 eexists. split; [exact Hs1 |]. split; [exact Hs2 |].
  split; [exact M1 |]. split; [rewrite Hl1, Hl2; exact M2 |].
  intros Hsat.
  assert (He : (sum1 == sum2)%Q).
  { rewrite E1, E2. rewrite (frequency_value_saturated _ Hsat).
    rewrite (frequency_value_saturated
               (count more 60 scope_agent (agentId ctx) (sessionKey ctx)))
      by lia.
    reflexivity. }
  assert (Hc : (clamp sum1 (0 # 1) (100 # 1) == clamp sum2 (0 # 1) (100 # 1))%Q).
  { apply Qle_antisym; apply clamp_monotone; lra. }
  split.
  - exact (Math_round_comp _ _ Hc).
  - rewrite Hl1, Hl2. exact (scoreToRiskLevel_comp _ _ Hc).
Qed.

(** More trust never raises the risk: with everything else in the
    context unchanged, a higher trust score gives a score and a level
    that are at most what they were. *)
Theorem risk_falls_with_trust (ctx : EvaluationContext)
    (tracker : FrequencyTracker) (lower higher : TrustSnapshot) :
  own_tool_name (toolName ctx) ->
  (score lower <= score higher)%Q ->
  let r_low := assess showNumber showMember overrides (with_trust ctx lower) tracker in
  let r_high := assess showNumber showMember overrides (with_trust ctx higher) tracker in
  exists s_low s_high : Z,
    risk_score r_low = Num s_low /\ risk_score r_high = Num s_high
    /\ s_high <= s_low
    /\ risk_rank (risk_level r_high) <= risk_rank (risk_level r_low).
Proof.
  intros Hown H r_low r_high.
  destruct (lookupToolRisk_number (toolName ctx) overrides Hown) as [raw Hraw].
  destruct (assess_of_number showNumber showMember overrides
              (with_trust ctx lower) tracker raw Hraw)
    as (sum1 & _ & E1 & Hs1 & Hl1 & _).
  destruct (assess_of_number showNumber showMember overrides
              (with_trust ctx higher) tracker raw Hraw)
    as (sum2 & _ & E2 & Hs2 & Hl2 & _).
  fold r_low in Hs1, Hl1. fold r_high in Hs2, Hl2.
  cbn [with_trust toolName time trust agentId sessionKey] in E1, E2.
  change (isExternalTarget (with_trust ctx higher))
    with (isExternalTarget ctx) in E2.
  change (isExternalTarget (with_trust ctx lower))
    with (isExternalTarget ctx) in E1.
  assert (Hle : (sum2 <= sum1)%Q).
  { rewrite E1, E2. unfold Qdiv. change (/ (100 # 1))%Q with (1 # 100)%Q. lra. }
  destruct (score_and_level_monotone sum2 sum1 Hle) as [M1 M2].
  do 2 eexists. split; [exact Hs1 |]. split; [exact Hs2 |].
  split; [exact M1 |]. rewrite Hl1, Hl2. exact M2.
Qed.

(** For inputs in their ranges (trust score in [[0,100]], overrides in
    [[0,100]], a count that is not negative) every factor value lies
    between 0 and its weight, the sum lies in [[0,100]], and the clamp
    changes nothing: the score is the rounded sum. *)
Theorem in_range_inputs_are_not_clamped (ctx : EvaluationContext)
    (tracker : FrequencyTracker) :
  own_tool_name (toolName ctx) ->
  (0 <= score (trust ctx) <= 100)%Q ->
  (forall name v, overrides !! name = Some v -> (0 <= v <= 100)%Q) ->
  0 <= count tracker 60 scope_agent (agentId ctx) (sessionKey ctx) ->
  let r := assess showNumber showMember overrides ctx tracker in
  Forall (fun f => exists v, rf_value f = Num v /\ (0 <= v <= rf_weight f)%Q)
         (factors r)
  /\ exists sum,
       factor_sum r = Num sum
       /\ (0 <= sum <= 100)%Q
       /\ risk_score r = Num (Math_round sum).
Proof.
  intros Hown Ht Ho Hc r.
  destruct (lookupToolRisk_number (toolName ctx) overrides Hown) as [raw Hraw].
  destruct (lookupToolRisk_range overrides (toolName ctx) raw Ho Hraw)
    as [Htool _].
  pose proof (frequency_value_range _ Hc) as Hfreq.
  split.
  - subst r. unfold assess. rewrite Hraw. cbn [factors ToNumber nan_map].
    repeat constructor; eexists; (split; [reflexivity |]);
      cbn [rf_value rf_weight];
      try (destruct (isOffHours _); lra);
      try (destruct (isExternalTarget _); lra);
      try (unfold Qdiv; change (/ (100 # 1))%Q with (1 # 100)%Q; lra);
      try lra.
  - destruct (assess_of_number showNumber showMember overrides ctx tracker raw Hraw)
      as (sum & Hsum & E & Hs & _).
    fold r in Hsum, Hs.
    assert (HS : (0 <= sum <= 100)%Q).
    { rewrite E. destruct (isOffHours _), (isExternalTarget _);
        unfold Qdiv in *; change (/ (100 # 1))%Q with (1 # 100)%Q; lra. }
    exists sum. split; [exact Hsum |]. split; [exact HS |].
    rewrite Hs. f_equal. apply Math_round_comp.
    destruct (clamp_cases sum) as [[Hx Ex] | [[Hx Ex] | [Hx Ex]]];
      [lra | exact Ex | lra].
Qed.

End AssessProperties.

(** ** The engine: what a call changes and what it returns *)

Section EngineCalls.

Context {W : Type}.
Variable sub : Subsystems W.
Variable config : GovernanceConfig.

(** What the [catch] block returns, when it returns. *)
Lemma evaluate_handler_returns (ctx : EvaluationContext) (startUs : Z)
    (e : Exception) (s s' : Engine W) (v : Verdict) :
  evaluate_handler sub config ctx startUs e s = (Returned v, s') ->
  v = fallback_verdict config ctx (evaluationUs v).
Proof.
  unfold evaluate_handler, modify_stats, bind, call, read, gets, ret.
  cbn [world stats policyIndex].
  repeat step sub config; intros [= <- <-]; reflexivity.
Qed.

(** What the [try] block returns, when it returns: the result of the
    policy evaluator on the enriched context and the resolved
    policies. *)
Lemma evaluate_body_returns (ctx : EvaluationContext) (startUs : Z)
    (s s' : Engine W) (v : Verdict) :
  evaluate_body sub config ctx startUs s = (Returned v, s') ->
  exists enriched policies deps,
    let res := evaluateWithDeps (conditionEvaluators sub) enriched policies
                 (v_risk v) deps in
    v_action v = verdict_action (action res)
    /\ v_reason v = reason res
    /\ matchedPolicies v = matches res
    /\ v_trust v = trust enriched.
Proof.
  unfold evaluate_body, updateStats, modify_stats, bind, call, read, gets, ret.
  cbn [world stats policyIndex].
  repeat step sub config; intros [= <- <-];
    do 3 eexists; cbn [v_action v_reason matchedPolicies v_trust v_risk];
    repeat split.
Qed.



(** A verdict returned by [evaluate] is never escalate.  Either it comes
    from the policy evaluator, the error count is unchanged, and it is
    deny exactly when one of its matched policies has a deny effect; or
    it is the fallback verdict and one error has been counted. *)
Theorem returned_verdict_is_policy_or_fallback (ctx : EvaluationContext)
    (s s' : Engine W) (v : Verdict) :
  evaluate sub config ctx s = (Returned v, s') ->
  v_action v <> escalate
  /\ ((errorCount (stats s') = errorCount (stats s)
       /\ (v_action v = deny
           <-> exists m, In m (matchedPolicies v) /\ is_deny (effect m) = true))
      \/ (errorCount (stats s') = errorCount (stats s) + 1
          /\ v = fallback_verdict config ctx (evaluationUs v))).
Proof.
  destruct (read_nowUs_stats sub s) as (startUs & s1 & Hread & Hst1 & _).
  rewrite (evaluate_unfold sub config ctx s s1 startUs Hread).
  destruct (evaluate_body sub config ctx startUs s1) as [[v0 | e] s2] eqn:Hb.
  - intros [= -> ->].
    destruct (evaluate_body_stats sub config ctx startUs s1 s' _ Hb) as [_ Hst].
    destruct (evaluate_body_returns ctx startUs s1 s' v Hb)
      as (enriched & policies & deps & Ha & _ & Hm & _).
    rewrite evaluateWithDeps_action in Ha. rewrite evaluateWithDeps_matches in Hm.
    split.
    + rewrite Ha. now destruct (existsb _ _).
    + left. split; [rewrite Hst, <- Hst1; reflexivity |].
      rewrite Ha, Hm. rewrite <- existsb_exists.
      destruct (existsb _ _); cbn [verdict_action]; split; congruence.
  - intros Hh.
    pose proof (evaluate_handler_returns ctx startUs e s2 s' v Hh) as Hv.
    apply evaluate_body_stats in Hb. destruct Hb as [_ Hst2].
    apply evaluate_handler_stats in Hh.
    split.
    + rewrite Hv. unfold fallback_verdict, fallback_action. cbn [v_action].
      now destruct (cfg_failMode config).
    + right. split; [| exact Hv]. rewrite Hh, Hst2, Hst1. reflexivity.
Qed.

(** With auditing disabled the audit trail is never called: [evaluate]
    behaves the same whatever the audit trail does. *)
Theorem disabled_audit_is_never_called (ctx : EvaluationContext) (s : Engine W)
    (record : AuditVerdict -> AuditContext -> TrustSnapshot -> RiskSummary ->
              list MatchedPolicy -> Z -> W -> Outcome unit * W) :
  cfg_audit_enabled config = false ->
  evaluate (with_audit_record sub record) config ctx s
  = evaluate sub config ctx s.
Proof.
  intros Hoff.
  unfold evaluate, try_catch, evaluate_body, evaluate_handler, updateStats,
    modify_stats, bind, call, read, gets, ret.
  cbn [with_audit_record nowUs Date_now enrichContext frequency_record
         frequency_tracker resolveEffectivePolicies logger_error
         conditionEvaluators show_number].
  rewrite Hoff. reflexivity.
Qed.

End EngineCalls.

(** ** The running statistics *)

Lemma updateStats_pure_mean (a : VerdictAction) (us : Z) (st : EvaluationStats)
    (sum : Z) :
  0 <= totalEvaluations st ->
  (avgEvaluationUs st * inject_Z (totalEvaluations st) == inject_Z sum)%Q ->
  let st' := updateStats_pure a us st in
  totalEvaluations st' = totalEvaluations st + 1
  /\ (avgEvaluationUs st' * inject_Z (totalEvaluations st') == inject_Z (sum + us))%Q.
Proof.
  intros Hn Hm st'. subst st'. cbn [updateStats_pure totalEvaluations avgEvaluationUs].
  split; [reflexivity |].
  replace (totalEvaluations st + 1 - 1) with (totalEvaluations st) by lia.
  rewrite Hm.
  assert (Hnz : ~ (inject_Z (totalEvaluations st + 1) == 0)%Q).
  { change 0%Q with (inject_Z 0). rewrite inject_Z_injective. lia. }
  rewrite Qmult_comm, Qmult_div_r by exact Hnz.
  now rewrite inject_Z_plus.
Qed.

(** The running average is the mean: after any run of [updateStats]
    calls on the initial statistics, [totalEvaluations] is the number of
    calls and [avgEvaluationUs] times that number is the sum of the
    durations (in exact arithmetic); [allowCount] is the number of allow
    calls and [errorCount] is untouched. *)
Theorem running_average_is_the_mean (calls : list (VerdictAction * Z)) :
  let st := updateStats_all calls initial_stats in
  totalEvaluations st = Z.of_nat (length calls)
  /\ (avgEvaluationUs st * inject_Z (Z.of_nat (length calls))
      == inject_Z (total_duration calls))%Q
  /\ allowCount st
     = Z.of_nat (length (List.filter
                           (fun call => match fst call with
                                        | allow => true
                                        | _ => false
                                        end) calls))
  /\ errorCount st = 0.
Proof.
  assert (G : forall calls st sum allowed,
             0 <= totalEvaluations st ->
             (avgEvaluationUs st * inject_Z (totalEvaluations st) == inject_Z sum)%Q ->
             allowCount st = allowed ->
             let st' := updateStats_all calls st in
             totalEvaluations st'
             = totalEvaluations st + Z.of_nat (length calls)
             /\ (avgEvaluationUs st' * inject_Z (totalEvaluations st')
                 == inject_Z (sum + total_duration calls))%Q
             /\ allowCount st'
                = allowed
                  + Z.of_nat (length (List.filter
                                        (fun call => match fst call with
                                                     | allow => true
                                                     | _ => false
                                                     end) calls))
             /\ errorCount st' = errorCount st).
  { clear calls. induction calls as [|[a us] calls IH]; intros st sum allowed Hn Hm Ha.
    - cbn. rewrite !Z.add_0_r. now repeat split.
    - cbn [updateStats_all fold_left fst snd].
      destruct (updateStats_pure_mean a us st sum Hn Hm) as [Ht Hm'].
      specialize (IH (updateStats_pure a us st) (sum + us)
                     (allowCount (updateStats_pure a us st))
                     ltac:(rewrite Ht; lia) Hm' eq_refl).
      cbn zeta in IH. unfold updateStats_all in IH.
      destruct IH as (I1 & I2 & I3 & I4).
      rewrite I1, Ht. split; [cbn [length]; lia |].
      split.
      { rewrite I1, Ht in I2. rewrite I2. cbn [total_duration fold_right snd].
        fold (total_duration calls).
        replace (sum + us + total_duration calls)
          with (sum + (us + total_duration calls)) by lia.
        replace (totalEvaluations st + Z.of_nat (length ((a, us) :: calls)))
          with (totalEvaluations st + 1 + Z.of_nat (length calls))
          by (cbn [length]; lia).
        reflexivity. }
      split; [| rewrite I4; reflexivity].
      rewrite I3. cbn [List.filter fst]. subst allowed.
      destruct a; cbn [updateStats_pure allowCount length]; lia. }
  intros st.
  destruct (G calls initial_stats 0 0 ltac:(cbn; lia) ltac:(reflexivity) eq_refl)
    as (G1 & G2 & G3 & G4).
  fold st in G1, G2, G3, G4. cbn [initial_stats totalEvaluations errorCount] in *.
  rewrite Z.add_0_l in G1, G2, G3.
  split; [exact G1 |]. split; [now rewrite <- G1 |]. split; [exact G3 | exact G4].
Qed.

(** ** The policy count of the status *)

Local Set Warnings "-clear-no-such-hyp".

Lemma count_policy_invariant (st : PolicyCounter) (p : Policy) :
  policyCount st = Z.of_nat (size (counted st)) ->
  let st' := count_policy st p in
  policyCount st' = Z.of_nat (size (counted st'))
  /\ counted st' = {[policy_id p]} ∪ counted st.
Proof.
  intros H st'. subst st'. unfold count_policy.
  destruct (bool_decide (policy_id p ∈ counted st)) eqn:E.
  - apply bool_decide_eq_true in E. split; [exact H |]. set_solver.
  - apply bool_decide_eq_false in E. cbn [policyCount counted]. split; [| reflexivity].
    rewrite size_union by set_solver. rewrite size_singleton. lia.
Qed.

Lemma count_policies_invariant (ps : list Policy) (st : PolicyCounter) :
  policyCount st = Z.of_nat (size (counted st)) ->
  let st' := fold_left count_policy ps st in
  policyCount st' = Z.of_nat (size (counted st'))
  /\ counted st' = list_to_set (List.map policy_id ps) ∪ counted st.
Proof.
  revert st. induction ps as [|p ps IH]; intros st H; cbn [fold_left List.map list_to_set].
  - split; [exact H | set_solver].
  - destruct (count_policy_invariant st p H) as [H1 H2].
    destruct (IH (count_policy st p) H1) as [I1 I2]. cbn zeta in *.
    split; [exact I1 |]. rewrite I2, H2. set_solver.
Qed.

Lemma size_list_to_set_le (l : list string) :
  (size (list_to_set l : gset string) <= length l)%nat.
Proof.
  induction l as [|x l IH]; cbn [list_to_set length].
  - now rewrite size_empty.
  - rewrite size_union_alt, size_singleton.
    assert (size (list_to_set l ∖ {[x]} : gset string)
            <= size (list_to_set l : gset string))%nat
      by (apply subseteq_size; set_solver).
    lia.
Qed.

(** [getStatus] counts every policy id once, however many hook lists
    hold the policy: the count is the number of distinct ids, so it does
    not depend on the order of the lists or of the policies in them, and
    it is at most the number of listed policies. *)
Theorem policyCount_counts_distinct_ids (values : list (list Policy)) :
  getStatus_policyCount values
  = Z.of_nat (size (list_to_set (listed_ids values) : gset string))
  /\ getStatus_policyCount values <= Z.of_nat (length (concat values))
  /\ forall reordered,
       Permutation (concat values) (concat reordered) ->
       getStatus_policyCount reordered = getStatus_policyCount values.
Proof.
  assert (G : forall values st,
             policyCount st = Z.of_nat (size (counted st)) ->
             let st' := fold_left (fun st policies => fold_left count_policy policies st)
                                  values st in
             policyCount st' = Z.of_nat (size (counted st'))
             /\ counted st' = list_to_set (listed_ids values) ∪ counted st).
  { clear values. induction values as [|ps values IH]; intros st H; cbn [fold_left].
    - split; [exact H |]. unfold listed_ids. cbn. set_solver.
    - destruct (count_policies_invariant ps st H) as [H1 H2].
      destruct (IH (fold_left count_policy ps st) H1) as [I1 I2]. cbn zeta in *.
      split; [exact I1 |]. rewrite I2, H2. unfold listed_ids.
      cbn [concat]. rewrite List.map_app, list_to_set_app_L. set_solver. }
  assert (E : forall values,
             getStatus_policyCount values
             = Z.of_nat (size (list_to_set (listed_ids values) : gset string))).
  { intros vs. unfold getStatus_policyCount.
    assert (H0 : policyCount {| counted := ∅; policyCount := 0 |}
                 = Z.of_nat (size (counted {| counted := ∅; policyCount := 0 |})))
      by (cbn [policyCount counted]; now rewrite size_empty).
    destruct (G vs {| counted := ∅; policyCount := 0 |} H0) as [G1 G2].
    cbn zeta in *. rewrite G1, G2. cbn [counted].
    now rewrite (right_id_L ∅ (∪)). }
  split; [apply E |]. split.
  - rewrite E. apply inj_le.
    etransitivity; [apply size_list_to_set_le |].
    unfold listed_ids. now rewrite length_map.
  - intros reordered HP. rewrite !E. f_equal. f_equal.
    unfold listed_ids. apply set_eq. intros x.
    rewrite !elem_of_list_to_set.
    assert (P : Permutation (List.map policy_id (concat values))
                            (List.map policy_id (concat reordered)))
      by now apply Permutation_map.
    split; intros Hx.
    + rewrite P. exact Hx.
    + rewrite <- P. exact Hx.
Qed.

(** ** Instances on the sample inputs *)


Lemma allow_reason_witness :
  (forall m, In m (contributions Sample.no_evaluators Sample.ctx
                     [Sample.allow_audit] Sample.no_risk Sample.deps) ->
             is_deny (effect m) = false)
  /\ reason (evaluateWithDeps Sample.no_evaluators Sample.ctx
               [Sample.allow_audit] Sample.no_risk Sample.deps)
     = "Allowed with audit logging"%string.
Proof.
  assert (H : forall m, In m (contributions Sample.no_evaluators Sample.ctx
                     [Sample.allow_audit] Sample.no_risk Sample.deps) ->
             is_deny (effect m) = false).
  { intros m [<- | []]. reflexivity. }
  split; [exact H |].
  exact (proj2 (allow_reason Sample.no_evaluators Sample.ctx Sample.no_risk
                  Sample.deps [Sample.allow_audit] H)).
Defined.


Lemma rejected_pattern_is_a_substring_search_witness :
  (∅ : gmap string RegExp) !! "rm -rf"%string = None
  /\ Sample.no_RegExp "rm -rf" = None
  /\ (matchesAny Sample.no_RegExp (One "rm -rf"%string) ["sudo rm -rf /"%string] ∅
      = true
      <-> exists before after,
            "sudo rm -rf /"%string = (before ++ "rm -rf" ++ after)%string).
Proof.
  split; [reflexivity |]. split; [reflexivity |].
  exact (rejected_pattern_is_a_substring_search Sample.no_RegExp
           "rm -rf" "sudo rm -rf /" ∅ eq_refl eq_refl).
Defined.

Lemma context_condition_with_fewer_fields_witness :
  fewer_fields Sample.cc_ops Sample.cc_ops_ticket_session
  /\ evaluateContextCondition Sample.new_RegExp Sample.globToRegex
       (CContext Sample.cc_ops_ticket_session) Sample.ctx_ops Sample.deps = true
  /\ evaluateContextCondition Sample.new_RegExp Sample.globToRegex
       (CContext Sample.cc_ops) Sample.ctx_ops Sample.deps = true.
Proof.
  assert (F : fewer_fields Sample.cc_ops Sample.cc_ops_ticket_session).
  { unfold fewer_fields, field_dropped_or_kept. cbn.
    split; [left; reflexivity |]. split; [left; reflexivity |].
    split; [left; reflexivity |]. split; [right; reflexivity | left; reflexivity]. }
  split; [exact F |]. split; [reflexivity |].
  exact (context_condition_with_fewer_fields Sample.new_RegExp Sample.globToRegex
           _ _ Sample.ctx_ops Sample.deps F eq_refl).
Defined.

Lemma context_condition_holds_only_if_witness :
  evaluateContextCondition Sample.new_RegExp Sample.globToRegex
    (CContext Sample.cc_ops_ticket_session) Sample.ctx_ops Sample.deps = true
  /\ exists ch, channel Sample.ctx_ops = Some ch /\ ch <> ""%string
                /\ In ch ["ops"; "oncall"]%string.
Proof.
  split; [reflexivity |].
  exact (proj1 (context_condition_holds_only_if Sample.new_RegExp
                  Sample.globToRegex Sample.cc_ops_ticket_session
                  Sample.ctx_ops Sample.deps eq_refl)
           (Many ["ops"; "oncall"]%string) eq_refl).
Defined.

Lemma named_window_ignores_inline_fields_witness :
  truthy_opt (Some "office"%string) = true
  /\ evaluateTimeCondition
       (CTime (Sample.tm (Some "office"%string) (Some "23:00"%string)
                 (Some "23:30"%string) (Some [0])))
       Sample.ctx Sample.deps_office
     = evaluateTimeCondition
         (CTime (Sample.tm (Some "office"%string) None None None))
         Sample.ctx Sample.deps_office.
Proof.
  split; [reflexivity |].
  exact (named_window_ignores_inline_fields
           (Sample.tm (Some "office"%string) (Some "23:00"%string)
              (Some "23:30"%string) (Some [0]))
           (Sample.tm (Some "office"%string) None None None)
           Sample.ctx Sample.deps_office eq_refl eq_refl).
Defined.

Lemma one_sided_time_bounds_witness :
  truthy_opt (tm_window (Sample.tm None (Some "12:00"%string) None None)) = false
  /\ (evaluateTimeCondition
        (CTime (Sample.tm None (Some "12:00"%string) None None))
        Sample.ctx Sample.deps = true
      <-> 0 <= parseTimeToMinutes (Some "12:00"%string)
               <= minute_of_day Sample.ctx).
Proof.
  split; [reflexivity |].
  exact (proj1 (one_sided_time_bounds
                  (Sample.tm None (Some "12:00"%string) None None)
                  Sample.ctx Sample.deps eq_refl eq_refl)
           "12:00"%string eq_refl eq_refl).
Defined.

Lemma unparsable_bound_is_false_witness :
  (parseTimeToMinutes (Some "25:00"%string) < 0
   \/ parseTimeToMinutes (Some "08:00"%string) < 0)
  /\ evaluateTimeCondition
       (CTime (Sample.tm None (Some "25:00"%string) (Some "08:00"%string) None))
       Sample.ctx Sample.deps = false.
Proof.
  assert (H : parseTimeToMinutes (Some "25:00"%string) < 0
              \/ parseTimeToMinutes (Some "08:00"%string) < 0)
    by (left; reflexivity).
  split; [exact H |].
  exact (unparsable_bound_is_false
           (Sample.tm None (Some "25:00"%string) (Some "08:00"%string) None)
           Sample.ctx Sample.deps "25:00" "08:00" eq_refl eq_refl eq_refl H).
Defined.

Lemma time_condition_respects_days_witness :
  evaluateTimeCondition (CTime (Sample.tm (Some "office"%string) None None None))
    Sample.ctx Sample.deps_office = true
  /\ In (dayOfWeek (time Sample.ctx)) [1; 2; 3; 4; 5].
Proof.
  split; [reflexivity |].
  exact (proj2 (time_condition_respects_days
                  (Sample.tm (Some "office"%string) None None None)
                  Sample.ctx Sample.deps_office eq_refl)
           "office"%string Sample.office 1 [2; 3; 4; 5]
           eq_refl ltac:(discriminate) eq_refl eq_refl).
Defined.

Lemma named_windows_need_the_dependency_bag_witness :
  (forall r, In r (rules Sample.night_policy) ->
     exists c name, In (CTime c) (rule_conditions r)
                    /\ tm_window c = Some name /\ name <> ""%string
                    /\ ~ In name Object_prototype_keys)
  /\ PolicyEvaluator.evaluatePolicy Sample.evaluators Sample.night_policy
       Sample.ctx Sample.no_risk = None.
Proof.
  assert (H : forall r, In r (rules Sample.night_policy) ->
     exists c name, In (CTime c) (rule_conditions r)
                    /\ tm_window c = Some name /\ name <> ""%string
                    /\ ~ In name Object_prototype_keys).
  { intros r [<- | []].
    exists (Sample.tm (Some "night"%string) None None None), "night"%string.
    split; [left; reflexivity |]. split; [reflexivity |].
    split; [discriminate |].
    intros X. repeat (destruct X as [X | X]; [discriminate X |]). exact X. }
  split; [exact H |].
  exact (named_windows_need_the_dependency_bag Sample.new_RegExp
           Sample.globToRegex Sample.never Sample.never Sample.never
           Sample.never Sample.never Sample.never
           Sample.night_policy Sample.ctx Sample.no_risk H).
Defined.

Lemma tool_risk_in_range_witness :
  own_tool_name (Some "exec"%string)
  /\ (forall name v, (∅ : gmap string Q) !! name = Some v -> (0 <= v <= 100)%Q)
  /\ exists raw, lookupToolRisk (Some "exec"%string) ∅ = RiskNumber raw
                 /\ (0 <= raw <= 100)%Q.
Proof.
  assert (H : forall name v, (∅ : gmap string Q) !! name = Some v ->
                             (0 <= v <= 100)%Q).
  { intros name v X. rewrite lookup_empty in X. discriminate X. }
  split; [exact own_tool_name_exec |]. split; [exact H |].
  destruct (tool_risk_in_range ∅ (Some "exec"%string) own_tool_name_exec H)
    as (raw & Hraw & Hrange & _).
  exists raw. split; [exact Hraw | exact Hrange].
Defined.

Lemma risk_grows_with_frequency_witness :
  own_tool_name (toolName Sample.ctx)
  /\ count Sample.none_on_record 60 scope_agent (agentId Sample.ctx)
       (sessionKey Sample.ctx)
     <= count Sample.one_on_record 60 scope_agent (agentId Sample.ctx)
          (sessionKey Sample.ctx)
  /\ exists s1 s2 : Z,
       risk_score (assess Sample.show Sample.show_inherited ∅ Sample.ctx
                     Sample.none_on_record) = Num s1
       /\ risk_score (assess Sample.show Sample.show_inherited ∅ Sample.ctx
                        Sample.one_on_record) = Num s2
       /\ s1 <= s2.
Proof.
  assert (H : count Sample.none_on_record 60 scope_agent (agentId Sample.ctx)
                (sessionKey Sample.ctx)
              <= count Sample.one_on_record 60 scope_agent (agentId Sample.ctx)
                   (sessionKey Sample.ctx))
    by (cbn; lia).
  split; [exact own_tool_name_exec |]. split; [exact H |].
  destruct (risk_grows_with_frequency Sample.show Sample.show_inherited ∅
              Sample.ctx Sample.none_on_record Sample.one_on_record
              own_tool_name_exec H)
    as (s1 & s2 & H1 & H2 & Hle & _).
  exists s1, s2. split; [exact H1 |]. split; [exact H2 | exact Hle].
Defined.

Lemma risk_falls_with_trust_witness :
  own_tool_name (toolName Sample.ctx)
  /\ (score {| score := 10 # 1; tier := untrusted |}
      <= score {| score := 80 # 1; tier := privileged |})%Q
  /\ exists s_low s_high : Z,
       risk_score (assess Sample.show Sample.show_inherited ∅
                     (with_trust Sample.ctx {| score := 10 # 1; tier := untrusted |})
                     Sample.one_on_record) = Num s_low
       /\ risk_score (assess Sample.show Sample.show_inherited ∅
                        (with_trust Sample.ctx
                           {| score := 80 # 1; tier := privileged |})
                        Sample.one_on_record) = Num s_high
       /\ s_high <= s_low.
Proof.
  assert (H : (score {| score := 10 # 1; tier := untrusted |}
               <= score {| score := 80 # 1; tier := privileged |})%Q)
    by (cbn; discriminate).
  split; [exact own_tool_name_exec |]. split; [exact H |].
  destruct (risk_falls_with_trust Sample.show Sample.show_inherited ∅
              Sample.ctx Sample.one_on_record _ _ own_tool_name_exec H)
    as (s_low & s_high & H1 & H2 & Hle & _).
  exists s_low, s_high. split; [exact H1 |]. split; [exact H2 | exact Hle].
Defined.

Lemma in_range_inputs_are_not_clamped_witness :
  own_tool_name (toolName Sample.ctx)
  /\ (0 <= score (trust Sample.ctx) <= 100)%Q
  /\ exists sum,
       factor_sum (assess Sample.show Sample.show_inherited ∅ Sample.ctx
                     Sample.one_on_record) = Num sum
       /\ risk_score (assess Sample.show Sample.show_inherited ∅ Sample.ctx
                        Sample.one_on_record) = Num (Math_round sum).
Proof.
  assert (Ht : (0 <= score (trust Sample.ctx) <= 100)%Q)
    by (split; discriminate).
  assert (Ho : forall name v, (∅ : gmap string Q) !! name = Some v ->
                              (0 <= v <= 100)%Q).
  { intros name v X. rewrite lookup_empty in X. discriminate X. }
  assert (Hc : 0 <= count Sample.one_on_record 60 scope_agent
                      (agentId Sample.ctx) (sessionKey Sample.ctx))
    by (cbn; lia).
  split; [exact own_tool_name_exec |]. split; [exact Ht |].
  destruct (proj2 (in_range_inputs_are_not_clamped Sample.show
                     Sample.show_inherited ∅ Sample.ctx
                     Sample.one_on_record own_tool_name_exec Ht Ho Hc))
    as (sum & Hsum & _ & Hs).
  exists sum. split; [exact Hsum | exact Hs].
Defined.

Lemma returned_verdict_is_policy_or_fallback_witness :
  exists v s',
    evaluate Sample.working (Sample.config fail_closed true)
      Sample.ctx Sample.fresh = (Returned v, s')
    /\ v_action v <> escalate.
Proof.
  destruct (evaluate Sample.working (Sample.config fail_closed true)
              Sample.ctx Sample.fresh) as [[v | e] s'] eqn:E.
  - exists v, s'. split; [reflexivity |].
    exact (proj1 (returned_verdict_is_policy_or_fallback Sample.working
                    (Sample.config fail_closed true) Sample.ctx Sample.fresh
                    s' v E)).
  - exfalso. vm_compute in E. discriminate E.
Defined.

Lemma disabled_audit_is_never_called_witness :
  cfg_audit_enabled (Sample.config fail_open false) = false
  /\ evaluate (with_audit_record Sample.working (audit_record Sample.broken_audit))
       (Sample.config fail_open false) Sample.ctx Sample.fresh
     = evaluate Sample.working (Sample.config fail_open false)
         Sample.ctx Sample.fresh.
Proof.
  split; [reflexivity |].
  exact (disabled_audit_is_never_called Sample.working
           (Sample.config fail_open false) Sample.ctx Sample.fresh
           (audit_record Sample.broken_audit) eq_refl).
Defined.

Lemma action_depends_on_rules_and_filter_witness :
  Forall2 same_rules_and_filter [Sample.deny_shell; Sample.allow_audit]
                                [Sample.deny_shell_rescoped; Sample.allow_audit]
  /\ action (evaluateWithDeps Sample.no_evaluators Sample.ctx
               [Sample.deny_shell; Sample.allow_audit] Sample.no_risk Sample.deps)
     = action (evaluateWithDeps Sample.no_evaluators Sample.ctx
                 [Sample.deny_shell_rescoped; Sample.allow_audit]
                 Sample.no_risk Sample.deps).
Proof.
  assert (H : Forall2 same_rules_and_filter
                [Sample.deny_shell; Sample.allow_audit]
                [Sample.deny_shell_rescoped; Sample.allow_audit]).
  { repeat constructor. }
  split; [exact H |].
  exact (proj1 (action_depends_on_rules_and_filter Sample.no_evaluators
                  Sample.ctx Sample.no_risk Sample.deps _ _ H)).
Defined.
